(** * bingxGo: the BingX market-data streaming client

    A shallow embedding of [internal/websocket/websocket.go] and the
    properties of its frame codec, subscription protocol, message
    dispatcher and connection lifecycle.

    Go strings and byte slices are sequences of bytes: they are modelled
    by [string] (a list of [ascii] bytes).  The client's methods mutate
    the receiver and talk to the network; they are modelled in a state
    monad over a [World] that holds the receiver's fields, the history of
    observable events and the goroutines started so far.  Everything the
    client calls outside this repository (gzip, encoding/json, strconv,
    uuid, the websocket transport) is collected in a record [Env]. *)

From Stdlib Require Import String Ascii List Bool Arith ZArith NArith QArith Qabs Lia.
Import ListNotations.

Local Close Scope Q_scope.

Local Open Scope list_scope.
Local Open Scope string_scope.

Set Warnings "-register-all,-abstract-large-number".

(** ** Bytes and strings *)

Definition byte_eqb (a b : ascii) : bool := Ascii.eqb a b.

(** The double quote character (0x22). *)
Definition dquote : ascii := ascii_of_nat 34.

Definition lf : ascii := ascii_of_nat 10.

(** [byte_in c set]: the byte [c] occurs in [set]. *)
Fixpoint byte_in (c : ascii) (set : string) : bool :=
  match set with
  | EmptyString => false
  | String d rest => if byte_eqb c d then true else byte_in c rest
  end.

(** [strings.IndexByte]: the index of the first [b] in [s], or -1. *)
Fixpoint IndexByte (s : string) (b : ascii) : Z :=
  match s with
  | EmptyString => (-1)%Z
  | String c rest =>
      if byte_eqb c b then 0%Z
      else let i := IndexByte rest b in
           if (i <? 0)%Z then (-1)%Z else (i + 1)%Z
  end.

(** [strings.IndexRune s r] for a rune below [utf8.RuneSelf] is
    [IndexByte s (byte r)]. *)
Definition IndexRune (s : string) (r : ascii) : Z := IndexByte s r.

(** The slice [s[:n]]. *)
Definition slice_to (s : string) (n : Z) : string :=
  substring 0 (Z.to_nat n) s.

(** The slice [s[n:]]. *)
Fixpoint slice_from (s : string) (n : nat) : string :=
  match n, s with
  | O, _ => s
  | S k, EmptyString => EmptyString
  | S k, String _ rest => slice_from rest k
  end.

Definition is_empty (s : string) : bool :=
  match s with EmptyString => true | _ => false end.

(** JSON texts are written below with an apostrophe where the text has
    a double quote: [quoted "{'p':'1'}"] is the text {"p":"1"}. *)
Fixpoint quoted (s : string) : string :=
  match s with
  | EmptyString => EmptyString
  | String c rest =>
      String (if byte_eqb c "'"%char then dquote else c) (quoted rest)
  end.

(** ** UTF-8 (unicode/utf8)

    [fmt]'s scanner reads its input rune by rune.  [DecodeRune] is
    [utf8.DecodeRuneInString]: the code point at the start of [s] and its
    width in bytes; an invalid or truncated encoding decodes to
    [RuneError] with width 1. *)

Definition bval (c : ascii) : Z := Z.of_N (N_of_ascii c).

Definition RuneError : Z := 0xFFFD.

Definition in_range (lo hi : Z) (c : ascii) : bool :=
  ((lo <=? bval c) && (bval c <=? hi))%Z.

Definition low6 (c : ascii) : Z := Z.land (bval c) 0x3F.

Definition DecodeRune (s : string) : Z * nat :=
  match s with
  | EmptyString => (RuneError, 0)
  | String b0 s1 =>
      if (bval b0 <? 0x80)%Z then (bval b0, 1)
      else if in_range 0xC2 0xDF b0 then
        match s1 with
        | String b1 _ =>
            if in_range 0x80 0xBF b1
            then (Z.lor (Z.shiftl (Z.land (bval b0) 0x1F) 6) (low6 b1), 2)
            else (RuneError, 1)
        | _ => (RuneError, 1)
        end
      else if in_range 0xE0 0xEF b0 then
        match s1 with
        | String b1 (String b2 _) =>
            let lo := if (bval b0 =? 0xE0)%Z then 0xA0%Z else 0x80%Z in
            let hi := if (bval b0 =? 0xED)%Z then 0x9F%Z else 0xBF%Z in
            if in_range lo hi b1 && in_range 0x80 0xBF b2
            then (Z.lor (Z.shiftl (Z.land (bval b0) 0x0F) 12)
                        (Z.lor (Z.shiftl (low6 b1) 6) (low6 b2)), 3)
            else (RuneError, 1)
        | _ => (RuneError, 1)
        end
      else if in_range 0xF0 0xF4 b0 then
        match s1 with
        | String b1 (String b2 (String b3 _)) =>
            let lo := if (bval b0 =? 0xF0)%Z then 0x90%Z else 0x80%Z in
            let hi := if (bval b0 =? 0xF4)%Z then 0x8F%Z else 0xBF%Z in
            if in_range lo hi b1 && in_range 0x80 0xBF b2 && in_range 0x80 0xBF b3
            then (Z.lor (Z.shiftl (Z.land (bval b0) 0x07) 18)
                        (Z.lor (Z.shiftl (low6 b1) 12)
                               (Z.lor (Z.shiftl (low6 b2) 6) (low6 b3))), 4)
            else (RuneError, 1)
        | _ => (RuneError, 1)
        end
      else (RuneError, 1)
  end.

(** ** Scanning a float with [fmt.Sscanf(s, "%f", &f)] (fmt/scan.go) *)

(** The table [space] of fmt/scan.go and [isSpace] over it. *)
Definition space : list (Z * Z) :=
  [ (0x0009, 0x000d); (0x0020, 0x0020); (0x0085, 0x0085); (0x00a0, 0x00a0);
    (0x1680, 0x1680); (0x2000, 0x200a); (0x2028, 0x2029); (0x202f, 0x202f);
    (0x205f, 0x205f); (0x3000, 0x3000) ]%Z.

Fixpoint isSpace_in (tbl : list (Z * Z)) (r : Z) : bool :=
  match tbl with
  | [] => false
  | (lo, hi) :: rest =>
      if (r <? lo)%Z then false
      else if (r <=? hi)%Z then true
      else isSpace_in rest r
  end.

Definition isSpace (r : Z) : bool :=
  if (r >=? 0x10000)%Z then false else isSpace_in space r.

Definition peek_lf (s : string) : bool :=
  match s with
  | String c _ => byte_eqb c lf
  | EmptyString => false
  end.

(** [ss.SkipSpace] with [nlIsSpace = false], as [Sscanf] sets it:
    blanks are skipped, a newline is an error ([None]).  Every round
    consumes a rune, so [String.length s] rounds are enough. *)
Fixpoint SkipSpace_loop (fuel : nat) (s : string) : option string :=
  match fuel with
  | O => Some s
  | S f =>
      match s with
      | EmptyString => Some s
      | String _ rest =>
          let (r, w) := DecodeRune s in
          if (r =? 13)%Z && peek_lf rest then SkipSpace_loop f (slice_from s w)
          else if (r =? 10)%Z then None
          else if negb (isSpace r) then Some s
          else SkipSpace_loop f (slice_from s w)
      end
  end.

Definition SkipSpace (s : string) : option string :=
  SkipSpace_loop (String.length s) s.

(** The scanner's token buffer [s.buf] and the input not yet read. *)
Definition scan := (string * string)%type.

(** [ss.accept ok]: if the next rune is one of [ok], move it to the
    buffer.  All sets used below are ASCII, so a byte decides. *)
Definition accept (ok : string) (st : scan) : bool * scan :=
  match snd st with
  | EmptyString => (false, st)
  | String c rest =>
      if byte_in c ok then (true, (fst st ++ String c EmptyString, rest))
      else (false, st)
  end.

(** [for s.accept(ok) {}] *)
Fixpoint accept_loop (ok : string) (buf inp : string) : scan :=
  match inp with
  | EmptyString => (buf, inp)
  | String c rest =>
      if byte_in c ok then accept_loop ok (buf ++ String c EmptyString) rest
      else (buf, inp)
  end.

Definition accept_all (ok : string) (st : scan) : scan :=
  accept_loop ok (fst st) (snd st).

(** [s.accept(a) && s.accept(b) && s.accept(c)] *)
Definition accept3 (a b c : string) (st : scan) : bool * scan :=
  let (r1, st1) := accept a st in
  if r1 then
    let (r2, st2) := accept b st1 in
    if r2 then accept c st2 else (false, st2)
  else (false, st1).

Definition sign : string := "+-".
Definition period : string := ".".
Definition exponent : string := "eEpP".
Definition decimalDigits : string := "0123456789".
Definition hexadecimalDigits : string := "0123456789aAbBcCdDeEfF".

(** The second half of [ss.floatToken], from "decimal point?" on: the
    fraction and the exponent.
<<
  if s.accept(period) { for s.accept(digits) {} }
  if s.accept(exp) { s.accept(sign); for s.accept(decimalDigits + "_") {} }
>> *)
Definition float_tail (digits exp : string) (st : scan) : scan :=
  let (dot, st) := accept period st in
  let st := if dot then accept_all digits st else st in
  let (e, st) := accept exp st in
  if e then accept_all (decimalDigits ++ "_") (snd (accept sign st))
  else st.

(** [ss.floatToken]: the longest float-shaped prefix of the input.
    It does not check that the token is a number; [strconv] does.
<<
  if s.accept("nN") && s.accept("aA") && s.accept("nN") { return string(s.buf) }
  s.accept(sign)
  if s.accept("iI") && s.accept("nN") && s.accept("fF") { return string(s.buf) }
  digits := decimalDigits + "_"
  exp := exponent
  if s.accept("0") && s.accept("xX") { digits = hexadecimalDigits + "_"; exp = "pP" }
  for s.accept(digits) {}
  ... fraction and exponent ...
  return string(s.buf)
>> *)
Definition floatToken (inp : string) : scan :=
  let st := (EmptyString, inp) in
  let (nan, st) := accept3 "nN" "aA" "nN" st in
  if nan then st else
  let st := snd (accept sign st) in
  let (inf, st) := accept3 "iI" "nN" "fF" st in
  if inf then st else
  let (zero, st) := accept "0" st in
  let (hex, st) := if zero then accept "xX" st else (false, st) in
  let digits := if hex then hexadecimalDigits ++ "_" else decimalDigits ++ "_" in
  let exp := if hex then "pP" else exponent in
  float_tail digits exp (accept_all digits st).

(** Strings of decimal digits, and what may follow a number without
    being read as part of it. *)
Fixpoint all_digits (s : string) : bool :=
  match s with
  | EmptyString => true
  | String c rest => in_range 48 57 c && all_digits rest
  end.

(** [junk] does not go on a decimal number: it is empty or starts with
    a byte that is no digit, underscore, point, exponent or hex mark. *)
Definition stops_number (junk : string) : bool :=
  match junk with
  | EmptyString => true
  | String c _ => negb (byte_in c "0123456789_.eEpPxX")
  end.

(** [junk] does not go on an exponent: it is empty or starts with a
    byte that is no sign, digit or underscore. *)
Definition stops_exponent (junk : string) : bool :=
  match junk with
  | EmptyString => true
  | String c _ => negb (byte_in c "+-0123456789_")
  end.

(** [c] cannot begin a float token and is no blank: an ASCII byte
    that is no white space, sign, digit, underscore or point and none
    of the letters a float token may start with. *)
Definition starts_no_number (c : ascii) : bool :=
  (bval c <? 128)%Z && negb (isSpace (bval c))
  && negb (byte_in c "nN+-iI0123456789_.eEpP").

(** [hasX] of fmt/scan.go *)
Definition hasX (s : string) : bool :=
  byte_in "x"%char s || byte_in "X"%char s.

(** ** Data structures (websocket.go, "DATA STRUCTURES") *)

Record Channel := mkChannel {
  ID : string;
  ReqType : string;
  DataType : string
}.

(** [MarketData]: [md_DataType] is the field [DataType] (JSON member
    "dataType"), [md_Price] the field [Data.Price] (member "p" of the
    object "data"). *)
Record MarketData := mkMarketData {
  md_DataType : string;
  md_Price : string
}.

(** [parseSymbol]:
<<
  if idx := strings.IndexRune(s, '@'); idx > 0 { return s[:idx] }
  return s
>> *)
Definition parseSymbol (s : string) : string :=
  let idx := IndexRune s "@"%char in
  if (idx >? 0)%Z then slice_to s idx else s.

Definition conn_id := nat.

(** What a blocking [conn.ReadMessage] does next. *)
Inductive read_result :=
| RBlocked                    (* nothing has arrived yet *)
| RError                      (* the call returns an error *)
| RFrame (msg : string).      (* the call returns a message *)

(** The errors the client's methods return. *)
Inductive error :=
| ErrDial                     (* "WebSocket connection failed: ..." *)
| ErrMarshal (token : string) (* "marshal channel ...: ..." *)
| ErrNotConnected             (* "WebSocket not connected" *)
| ErrSubscribe (token : string) (* "subscribe ...: ..." *)
| ErrClose.                   (* "error closing WebSocket: ..." *)

(** The lines the client writes to the log. *)
Inductive logline :=
| LogConnected
| LogSubscribed (token : string) (i n : nat)
| LogReadError
| LogDecompressionFailed
| LogJSONDecodeFailed
| LogInvalidPrice (price : string)
| LogReconnecting
| LogReconnectFailed (e : error)
| LogReconnected
| LogClosed.

(** Where a [listen] goroutine stands. *)
Inductive pc :=
| AtLoop                 (* about to read [ws.conn] *)
| AtSelect (c : conn_id) (* holds [conn], about to poll [ws.quit] *)
| InRead (c : conn_id)   (* inside [conn.ReadMessage()] *)
| Exited.

Definition in_read (p : pc) : bool :=
  match p with InRead _ => true | _ => false end.

(** The client's fields.  [conn] is [None] for a nil pointer,
    [messageHandler] is [true] for a non-nil callback, [quit] is [true]
    once the channel [ws.quit] has been closed.  The mutex [mu] has no
    field: every method below runs as one step. *)
Record BingXWebSocket := mkWS {
  path : string;
  conn : option conn_id;
  tokens : list string;
  messageHandler : bool;
  quit : bool
}.

(** [NewBingXWebSocket] *)
Definition NewBingXWebSocket (tokens : list string) (messageHandler : bool)
  : BingXWebSocket :=
  {| path := "wss://open-api-swap.bingx.com/swap-market";
     conn := None;
     tokens := tokens;
     messageHandler := messageHandler;
     quit := false |}.

Section Client.

(** Go's [float64].  The client never computes with prices, it only
    passes on what [strconv] returns, so the type stays abstract. *)
Context {float64 : Type}.

Record PriceUpdate := mkPriceUpdate {
  Type_ : string;
  Symbol : string;
  Price : float64
}.

(** What the client does that can be observed from outside, in order. *)
Inductive event :=
| EvDial (url : string) (r : option conn_id)   (* DefaultDialer.Dial *)
| EvWrite (c : conn_id) (data : string) (ok : bool)
                                     (* c.WriteMessage(TextMessage, data) *)
| EvRead (c : conn_id) (r : option string)     (* c.ReadMessage returned *)
| EvConnClose (c : conn_id) (ok : bool)        (* c.Close() *)
| EvSleep (ms : Z)                             (* time.Sleep *)
| EvGoListen                                   (* go ws.listen() *)
| EvLog (l : logline)
| EvDispatch (m : MarketData)                  (* ws.dispatch entered *)
| EvHandler (u : PriceUpdate).                 (* ws.messageHandler(u) *)

(** ** The world outside the repository *)

Record Env := mkEnv {
  (** compress/gzip: [gzip.NewReader] followed by [io.ReadAll];
      [None] is a non-nil error. *)
  gunzip : string -> option string;
  (** encoding/json: [json.Unmarshal(data, &market)] on a zero
      [MarketData]; [None] is a non-nil error. *)
  json_Unmarshal : string -> option MarketData;
  (** encoding/json: the text [json.Marshal] produces for a [Channel]. *)
  json_encode : Channel -> string;
  (** strconv.ParseFloat(s, 64); [None] is a non-nil error. *)
  ParseFloat : string -> option float64;
  (** strconv.Atoi *)
  Atoi : string -> option Z;
  (** math.Ldexp *)
  Ldexp : float64 -> Z -> float64;
  (** github.com/google/uuid: the text of the [n]-th identifier that
      [uuid.New()] hands out in this process. *)
  uuid_New : nat -> string;
  (** gorilla/websocket: does the [n]-th [Dial] of this process succeed? *)
  dial_ok : nat -> bool;
  (** what the [k]-th [ReadMessage] on connection [c] does, as long as
      [c] has not been closed locally *)
  inbound : conn_id -> nat -> read_result;
  (** does the [k]-th [WriteMessage] on connection [c] succeed? *)
  write_ok : conn_id -> nat -> bool;
  (** does [Close] on connection [c] succeed? *)
  close_ok : conn_id -> bool
}.

Variable E : Env.

(** [json.Marshal(channel)]: a struct of three strings always encodes,
    the error is nil. *)
Definition json_Marshal (channel : Channel) : option string :=
  Some (json_encode E channel).

(** ** Utilities (websocket.go, "UTILITIES") *)

(** [decompress]: gzip reader over the frame, then read everything. *)
Definition decompress (data : string) : option string := gunzip E data.

(** [ss.convertFloat]: a token with a 'p' and no 'x' is a decimal
    number with a binary exponent, everything else goes to [strconv]. *)
Definition convertFloat (str : string) : option float64 :=
  let p := IndexRune str "p"%char in
  if (p >=? 0)%Z && negb (hasX str) then
    match ParseFloat E (slice_to str p) with
    | None => None
    | Some f =>
        match Atoi E (slice_from str (Z.to_nat p + 1)) with
        | None => None
        | Some m => Some (Ldexp E f m)
        end
    end
  else ParseFloat E str.

(** [fmt.Sscanf(s, "%f", &f)]: [doScanf] skips blanks before the verb,
    [scanOne] skips blanks again, fails at the end of the input, reads
    the float token and converts it.  Input after the token is left
    unread and is not an error.  [None] is a non-nil error. *)
Definition Sscanf_f (s : string) : option float64 :=
  match SkipSpace s with
  | None => None
  | Some s1 =>
      match SkipSpace s1 with
      | None => None
      | Some s2 =>
          if is_empty s2 then None
          else convertFloat (fst (floatToken s2))
      end
  end.

(** [parsePrice]:
<<
  var f float64
  _, err := fmt.Sscanf(s, "%f", &f)
  return f, err
>> *)
Definition parsePrice (s : string) : option float64 := Sscanf_f s.

(** ** The state the methods run in *)

Record World := mkWorld {
  ws : BingXWebSocket;     (* the receiver *)
  history : list event;    (* everything done so far, oldest first *)
  uuids : nat;             (* identifiers drawn from [uuid.New] *)
  dials : nat;             (* calls of [Dial] *)
  tasks : list pc          (* the [listen] goroutines, in start order *)
}.

Definition M (A : Type) : Type := World -> A * World.

Definition ret {A} (a : A) : M A := fun w => (a, w).

Definition bind {A B} (c : M A) (k : A -> M B) : M B :=
  fun w => let (a, w') := c w in k a w'.

Notation "x <- c ;; k" := (bind c (fun x => k))
  (at level 61, c at next level, right associativity).
Notation "c ;; k" := (bind c (fun _ => k))
  (at level 61, right associativity).

Definition emit (e : event) : M unit := fun w =>
  (tt, {| ws := ws w; history := (history w ++ [e])%list;
          uuids := uuids w; dials := dials w; tasks := tasks w |}).

Definition log (l : logline) : M unit := emit (EvLog l).

Definition get_conn : M (option conn_id) := fun w => (conn (ws w), w).
Definition get_quit : M bool := fun w => (quit (ws w), w).
Definition get_tokens : M (list string) := fun w => (tokens (ws w), w).
Definition get_handler : M bool := fun w => (messageHandler (ws w), w).

Definition set_ws (f : BingXWebSocket -> BingXWebSocket) : M unit := fun w =>
  (tt, {| ws := f (ws w); history := history w;
          uuids := uuids w; dials := dials w; tasks := tasks w |}).

(** [ws.conn = c] *)
Definition set_conn (c : option conn_id) : M unit :=
  set_ws (fun s => {| path := path s; conn := c; tokens := tokens s;
                      messageHandler := messageHandler s; quit := quit s |}).

(** [close(ws.quit)] *)
Definition close_quit : M unit :=
  set_ws (fun s => {| path := path s; conn := conn s; tokens := tokens s;
                      messageHandler := messageHandler s; quit := true |}).

(** *** The transport, as the history determines it *)

Definition is_write_on (c : conn_id) (e : event) : bool :=
  match e with EvWrite c' _ _ => Nat.eqb c c' | _ => false end.

Definition is_read_on (c : conn_id) (e : event) : bool :=
  match e with EvRead c' _ => Nat.eqb c c' | _ => false end.

Definition is_close_of (c : conn_id) (e : event) : bool :=
  match e with EvConnClose c' _ => Nat.eqb c c' | _ => false end.

Definition writes_on (c : conn_id) (h : list event) : nat :=
  List.length (filter (is_write_on c) h).

Definition reads_on (c : conn_id) (h : list event) : nat :=
  List.length (filter (is_read_on c) h).

Definition closed (c : conn_id) (h : list event) : bool :=
  existsb (is_close_of c) h.

(** [websocket.DefaultDialer.Dial(ws.path, nil)]: the [n]-th successful
    or failed dial; a new connection is named after its dial. *)
Definition Dial : M (option conn_id) := fun w =>
  let n := dials w in
  let r := if dial_ok E n then Some n else None in
  (r, {| ws := ws w; history := (history w ++ [EvDial (path (ws w)) r])%list;
         uuids := uuids w; dials := S n; tasks := tasks w |}).

(** [c.WriteMessage(websocket.TextMessage, data)]; [true] is a nil
    error.  A connection that was closed locally refuses the write. *)
Definition WriteMessage (c : conn_id) (data : string) : M bool := fun w =>
  let ok := negb (closed c (history w)) && write_ok E c (writes_on c (history w)) in
  (ok, snd (emit (EvWrite c data ok) w)).

(** [c.ReadMessage()]: an error once the connection was closed locally,
    otherwise what the peer and the network deliver next.  A call that
    is still blocked leaves the world as it is. *)
Definition ReadMessage (c : conn_id) : M read_result := fun w =>
  let r := if closed c (history w) then RError
           else inbound E c (reads_on c (history w)) in
  match r with
  | RBlocked => (RBlocked, w)
  | RError => (RError, snd (emit (EvRead c None) w))
  | RFrame msg => (RFrame msg, snd (emit (EvRead c (Some msg)) w))
  end.

(** [c.Close()]; [true] is a nil error. *)
Definition connClose (c : conn_id) : M bool := fun w =>
  let ok := close_ok E c in
  (ok, snd (emit (EvConnClose c ok) w)).

Definition Sleep (ms : Z) : M unit := emit (EvSleep ms).

(** [uuid.New().String()] *)
Definition uuid_String : M string := fun w =>
  (uuid_New E (uuids w),
   {| ws := ws w; history := history w;
      uuids := S (uuids w); dials := dials w; tasks := tasks w |}).

(** [go ws.listen()]: one more goroutine, at the head of its loop. *)
Definition go_listen : M unit := fun w =>
  (tt, {| ws := ws w; history := (history w ++ [EvGoListen])%list;
          uuids := uuids w; dials := dials w;
          tasks := (tasks w ++ [AtLoop])%list |}).

(** ** Connection (websocket.go, "CONNECTION") *)

(** The body of the loop of [subscribeAll], for the tokens from index
    [i] on; [n] is [len(ws.tokens)]. *)
Fixpoint subscribe_loop (i n : nat) (toks : list string) : M (option error) :=
  match toks with
  | [] => ret None
  | token :: rest =>
      id <- uuid_String ;;
      let channel := {| ID := id; ReqType := "sub"; DataType := token |} in
      match json_Marshal channel with
      | None => ret (Some (ErrMarshal token))
      | Some data =>
          c <- get_conn ;;
          match c with
          | None => ret (Some ErrNotConnected)
          | Some conn =>
              ok <- WriteMessage conn data ;;
              if ok then
                log (LogSubscribed token (i + 1) n) ;;
                (if (i <? n - 1)%nat then Sleep 100 else ret tt) ;;
                subscribe_loop (S i) n rest
              else ret (Some (ErrSubscribe token))
          end
      end
  end.

(** [subscribeAll]: [for i, token := range ws.tokens { ... }; return nil] *)
Definition subscribeAll : M (option error) :=
  toks <- get_tokens ;;
  subscribe_loop 0 (List.length toks) toks.

(** [Connect]:
<<
  conn, _, err := websocket.DefaultDialer.Dial(ws.path, nil)
  if err != nil { return fmt.Errorf(...) }
  ws.conn = conn
  log.Println("WebSocket connected")
  go ws.listen()
  return ws.subscribeAll()
>> *)
Definition Connect : M (option error) :=
  r <- Dial ;;
  match r with
  | None => ret (Some ErrDial)
  | Some c =>
      set_conn (Some c) ;;
      log LogConnected ;;
      go_listen ;;
      subscribeAll
  end.

(** ** Message handling (websocket.go, "MESSAGE HANDLING") *)

(** [sendPong]: write "Pong" if there is a connection; the write's
    error is dropped. *)
Definition sendPong : M unit :=
  c <- get_conn ;;
  match c with
  | Some conn => _ <- WriteMessage conn "Pong" ;; ret tt
  | None => ret tt
  end.

(** [dispatch].  The first line records that the dispatcher was
    entered; the rest is the source:
<<
  if m.DataType == "" || m.Data.Price == "" { return }
  symbol := parseSymbol(m.DataType)
  price, err := parsePrice(m.Data.Price)
  if err != nil { log.Printf("Invalid price ..."); return }
  if ws.messageHandler != nil { ws.messageHandler(PriceUpdate{...}) }
>> *)
Definition dispatch (m : MarketData) : M unit :=
  emit (EvDispatch m) ;;
  if is_empty (md_DataType m) || is_empty (md_Price m) then ret tt
  else
    let symbol := parseSymbol (md_DataType m) in
    match parsePrice (md_Price m) with
    | None => log (LogInvalidPrice (md_Price m))
    | Some price =>
        h <- get_handler ;;
        if h then
          emit (EvHandler {| Type_ := "priceUpdate"; Symbol := symbol;
                             Price := price |})
        else ret tt
    end.

(** [handleMessage]:
<<
  data, err := decompress(msg)
  if err != nil { log.Printf("Decompression failed: ..."); return }
  if bytes.Equal(data, []byte("Ping")) { ws.sendPong(); return }
  var market MarketData
  if err := json.Unmarshal(data, &market); err != nil {
    log.Printf("JSON decode failed: ..."); return
  }
  ws.dispatch(market)
>> *)
Definition handleMessage (msg : string) : M unit :=
  match decompress msg with
  | None => log LogDecompressionFailed
  | Some data =>
      if String.eqb data "Ping" then sendPong
      else
        match json_Unmarshal E data with
        | None => log LogJSONDecodeFailed
        | Some market => dispatch market
        end
  end.

(** ** Reconnect and close (websocket.go, "RECONNECT & CLOSE") *)

(** [Close]:
<<
  select { case <-ws.quit: default: close(ws.quit) }
  if ws.conn != nil {
    err := ws.conn.Close()
    ws.conn = nil
    if err != nil { return fmt.Errorf("error closing WebSocket: ...") }
    log.Println("WebSocket closed")
  }
  return nil
>> *)
Definition Close : M (option error) :=
  q <- get_quit ;;
  (if q then ret tt else close_quit) ;;
  c <- get_conn ;;
  match c with
  | Some conn =>
      ok <- connClose conn ;;
      set_conn None ;;
      if ok then log LogClosed ;; ret None
      else ret (Some ErrClose)
  | None => ret None
  end.

(** [reconnect]:
<<
  log.Println("Attempting WebSocket reconnection...")
  ws.Close()
  time.Sleep(2 * time.Second)
  if err := ws.Connect(); err != nil { log.Printf("Reconnection failed: ...") }
  else { log.Println("Reconnected successfully") }
>> *)
Definition reconnect : M unit :=
  log LogReconnecting ;;
  _ <- Close ;;
  Sleep 2000 ;;
  err <- Connect ;;
  match err with
  | Some e => log (LogReconnectFailed e)
  | None => log LogReconnected
  end.

(** ** Message loop (websocket.go, "MESSAGE LOOP") *)

(** One step of a [listen] goroutine, from where it stands to the next
    place where another goroutine can run in between.  The callback is
    taken to return; the deferred [recover] has nothing to do then.
<<
  for {
    conn := ws.conn                        // AtLoop
    if conn == nil { return }
    select { case <-ws.quit: return        // AtSelect conn
             default: }
    _, msg, err := conn.ReadMessage()      // InRead conn
    if err != nil { log.Printf("WebSocket read error: ..."); ws.reconnect(); return }
    ws.handleMessage(msg)
  }
>> *)
Definition listen_step (p : pc) : M pc :=
  match p with
  | AtLoop =>
      c <- get_conn ;;
      match c with
      | None => ret Exited
      | Some conn => ret (AtSelect conn)
      end
  | AtSelect conn =>
      q <- get_quit ;;
      if q then ret Exited else ret (InRead conn)
  | InRead conn =>
      r <- ReadMessage conn ;;
      match r with
      | RBlocked => ret (InRead conn)
      | RError => log LogReadError ;; reconnect ;; ret Exited
      | RFrame msg => handleMessage msg ;; ret AtLoop
      end
  | Exited => ret Exited
  end.

(** ** Runs of the whole client *)

(** [sep] between every two neighbours of a list. *)
Fixpoint intersperse {A} (sep : A) (l : list A) : list A :=
  match l with
  | [] => []
  | [x] => [x]
  | x :: rest => x :: sep :: intersperse sep rest
  end.

Fixpoint replace_nth {A} (i : nat) (a : A) (l : list A) : list A :=
  match l, i with
  | [], _ => []
  | _ :: rest, O => a :: rest
  | x :: rest, S k => x :: replace_nth k a rest
  end.

Definition set_task (i : nat) (p : pc) : M unit := fun w =>
  (tt, {| ws := ws w; history := history w; uuids := uuids w;
          dials := dials w; tasks := replace_nth i p (tasks w) |}).

(** What can happen next: the application calls [Connect] or [Close],
    or the scheduler lets the [i]-th [listen] goroutine take a step. *)
Inductive action :=
| CallConnect
| CallClose
| Listen (i : nat).

Definition step (a : action) : M unit :=
  match a with
  | CallConnect => _ <- Connect ;; ret tt
  | CallClose => _ <- Close ;; ret tt
  | Listen i =>
      fun w =>
        match nth_error (tasks w) i with
        | None => (tt, w)
        | Some p => (p' <- listen_step p ;; set_task i p') w
        end
  end.

Fixpoint run (acts : list action) : M unit :=
  match acts with
  | [] => ret tt
  | a :: rest => step a ;; run rest
  end.

(** A fresh client: [NewBingXWebSocket(tokens, handler)], nothing done. *)
Definition boot (toks : list string) (handler : bool) : World :=
  {| ws := NewBingXWebSocket toks handler; history := [];
     uuids := 0; dials := 0; tasks := [] |}.

(** *** Reading a history *)

(** The events of a run: what [w'] has recorded beyond [w]. *)
Definition events_since (w w' : World) : list event :=
  skipn (List.length (history w)) (history w').

Definition is_dispatch (e : event) : bool :=
  match e with EvDispatch _ => true | _ => false end.

Definition is_write (e : event) : bool :=
  match e with EvWrite _ _ _ => true | _ => false end.

Definition is_dial (e : event) : bool :=
  match e with EvDial _ _ => true | _ => false end.

Definition is_conn_close (e : event) : bool :=
  match e with EvConnClose _ _ => true | _ => false end.

Definition is_log (e : event) : bool :=
  match e with EvLog _ => true | _ => false end.

Definition is_sleep (e : event) : bool :=
  match e with EvSleep _ => true | _ => false end.

Definition is_go_listen (e : event) : bool :=
  match e with EvGoListen => true | _ => false end.

Definition is_read (e : event) : bool :=
  match e with EvRead _ _ => true | _ => false end.

(** The events of the inbound path: a frame was read, the dispatcher
    was entered, the callback was called. *)
Definition is_inbound (e : event) : bool :=
  match e with
  | EvRead _ _ | EvDispatch _ | EvHandler _ => true
  | _ => false
  end.

(** The subscribe requests for the channels [toks], in their order,
    when the identifiers are drawn from the [k]-th on: each with an
    identifier of its own, the type "sub" and its channel. *)
Definition requests_for (k : nat) (toks : list string) : list Channel :=
  map (fun p => mkChannel (uuid_New E (fst p)) "sub" (snd p))
      (combine (seq k (List.length toks)) toks).

(** The payloads written to the transport, in order. *)
Definition written (h : list event) : list string :=
  flat_map (fun e => match e with EvWrite _ d _ => [d] | _ => [] end) h.

(** The connections closed, in order. *)
Definition closed_ids (h : list event) : list conn_id :=
  flat_map (fun e => match e with EvConnClose c _ => [c] | _ => [] end) h.

(** What a client with the channels [toks] and the callback [handler]
    may send and deliver: the payload of a write is "Pong" or a
    subscribe request for one of the channels; the callback is called
    only if there is one, with an update of type "priceUpdate" for a
    symbol that is not empty. *)
Definition sound_event (toks : list string) (handler : bool) (e : event) : Prop :=
  match e with
  | EvWrite _ d _ =>
      d = "Pong"
      \/ exists id tok, In tok toks /\ d = json_encode E (mkChannel id "sub" tok)
  | EvHandler u =>
      handler = true /\ Type_ u = "priceUpdate" /\ Symbol u <> ""
  | _ => True
  end.

(** A step that leaves the client's fields, the dial count and the
    goroutines alone, closes nothing and records sound events only. *)
Definition quiet (w w' : World) : Prop :=
  ws w' = ws w /\ dials w' = dials w /\ tasks w' = tasks w
  /\ exists evs,
       history w' = (history w ++ evs)%list
       /\ closed_ids evs = []
       /\ Forall (sound_event (tokens (ws w)) (messageHandler (ws w))) evs.

(** The handles are in order: every closed connection and the current
    one come from an earlier dial, the current one is not closed, and
    no connection was closed twice. *)
Definition handles_ok (w : World) : Prop :=
  (forall c, In c (closed_ids (history w)) -> c < dials w)
  /\ (forall c, conn (ws w) = Some c ->
                c < dials w /\ ~ In c (closed_ids (history w)))
  /\ NoDup (closed_ids (history w)).

(** A stretch of a run that keeps the client's configuration (endpoint,
    channels, callback), records sound events only and keeps the
    handles in order if they were. *)
Definition lawful (w w' : World) : Prop :=
  path (ws w') = path (ws w)
  /\ tokens (ws w') = tokens (ws w)
  /\ messageHandler (ws w') = messageHandler (ws w)
  /\ (exists evs,
        history w' = (history w ++ evs)%list
        /\ Forall (sound_event (tokens (ws w)) (messageHandler (ws w))) evs)
  /\ (handles_ok w -> handles_ok w').

End Client.

Arguments PriceUpdate : clear implicits.
Arguments event : clear implicits.
Arguments Env : clear implicits.
Arguments World : clear implicits.
Arguments M : clear implicits.
Arguments events_since : simpl never.

(** * A reference library

    To run the client on concrete frames the functions of [Env] need
    values.  This part gives one for each, written after the Go
    libraries they stand for. *)

(** ** compress/gzip, for members made of stored blocks

    [gunzip_ref] reads gzip members (RFC 1952) as [gzip.Reader] does:
    header with its optional fields, deflate data, CRC-32 and length.
    Of deflate (RFC 1951) it reads stored blocks only; a Huffman-coded
    block is outside what it covers and is reported as a failure. *)

Definition le16 (b0 b1 : ascii) : Z := (bval b0 + 256 * bval b1)%Z.

Definition le32 (b0 b1 b2 b3 : ascii) : Z :=
  (bval b0 + 256 * bval b1 + 65536 * bval b2 + 16777216 * bval b3)%Z.

Definition byte_of_Z (z : Z) : ascii := ascii_of_N (Z.to_N (z mod 256)).

Definition crc_bit (c : Z) : Z :=
  if Z.testbit c 0 then Z.lxor (Z.shiftr c 1) 0xEDB88320 else Z.shiftr c 1.

Definition crc_byte (crc : Z) (b : ascii) : Z :=
  let c := Z.lxor crc (bval b) in
  crc_bit (crc_bit (crc_bit (crc_bit (crc_bit (crc_bit (crc_bit (crc_bit c))))))).

Fixpoint crc_update (crc : Z) (s : string) : Z :=
  match s with
  | EmptyString => crc
  | String b rest => crc_update (crc_byte crc b) rest
  end.

(** [crc32.ChecksumIEEE] *)
Definition crc32 (s : string) : Z :=
  Z.lxor (crc_update 0xFFFFFFFF s) 0xFFFFFFFF.

(** [n] bytes from the front of [s], if there are that many. *)
Fixpoint take_bytes (n : nat) (s : string) : option (string * string) :=
  match n with
  | O => Some (EmptyString, s)
  | S k =>
      match s with
      | EmptyString => None
      | String c rest =>
          match take_bytes k rest with
          | Some (a, b) => Some (String c a, b)
          | None => None
          end
      end
  end.

(** [Reader.readString]: bytes up to and with the terminating zero,
    which has to come within the reader's 512-byte buffer. *)
Fixpoint read_zstring (room : nat) (s : string) : option (string * string) :=
  match room with
  | O => None
  | S k =>
      match s with
      | EmptyString => None
      | String c rest =>
          if (bval c =? 0)%Z then Some (String c EmptyString, rest)
          else match read_zstring k rest with
               | Some (a, b) => Some (String c a, b)
               | None => None
               end
      end
  end.

Definition flag (flg : Z) (bit : Z) : bool := negb (Z.land flg bit =? 0)%Z.

(** [Reader.readHeader]: the input after the header, or [None]. *)
Definition gzip_header (s : string) : option string :=
  match take_bytes 10 s with
  | None => None
  | Some (fixed, s1) =>
      match fixed with
      | String id1 (String id2 (String cm (String flg _))) =>
          if negb ((bval id1 =? 0x1f) && (bval id2 =? 0x8b) && (bval cm =? 8))%Z
          then None
          else
            let f := bval flg in
            let extra :=
              if flag f 4 then
                match s1 with
                | String l0 (String l1 s2) =>
                    match take_bytes (Z.to_nat (le16 l0 l1)) s2 with
                    | Some (d, s3) =>
                        Some (String l0 (String l1 d), s3)
                    | None => None
                    end
                | _ => None
                end
              else Some (EmptyString, s1) in
            match extra with
            | None => None
            | Some (x, s2) =>
                let name := if flag f 8 then read_zstring 512 s2
                            else Some (EmptyString, s2) in
                match name with
                | None => None
                | Some (nm, s3) =>
                    let comment := if flag f 16 then read_zstring 512 s3
                                   else Some (EmptyString, s3) in
                    match comment with
                    | None => None
                    | Some (cmt, s4) =>
                        if flag f 2 then
                          match s4 with
                          | String h0 (String h1 s5) =>
                              let digest := crc32 (fixed ++ x ++ nm ++ cmt) in
                              if (le16 h0 h1 =? digest mod 65536)%Z
                              then Some s5 else None
                          | _ => None
                          end
                        else Some s4
                    end
                end
            end
      | _ => None
      end
  end.

(** The deflate stream: stored blocks up to the final one. *)
Fixpoint inflate_stored (fuel : nat) (s : string) : option (string * string) :=
  match fuel with
  | O => None
  | S k =>
      match s with
      | String hd (String n0 (String n1 (String c0 (String c1 body)))) =>
          let final := Z.testbit (bval hd) 0 in
          let typ := Z.land (Z.shiftr (bval hd) 1) 3 in
          if negb (typ =? 0)%Z then None
          else if negb (le16 c0 c1 =? 65535 - le16 n0 n1)%Z then None
          else
            match take_bytes (Z.to_nat (le16 n0 n1)) body with
            | None => None
            | Some (data, rest) =>
                if final then Some (data, rest)
                else match inflate_stored k rest with
                     | Some (more, rest') => Some (data ++ more, rest')
                     | None => None
                     end
            end
      | _ => None
      end
  end.

(** One member after another until the input ends. *)
Fixpoint gunzip_members (fuel : nat) (s : string) : option string :=
  match fuel with
  | O => None
  | S k =>
      match gzip_header s with
      | None => None
      | Some body =>
          match inflate_stored (String.length body) body with
          | None => None
          | Some (data, trailer) =>
              match trailer with
              | String a0 (String a1 (String a2 (String a3
                  (String z0 (String z1 (String z2 (String z3 rest))))))) =>
                  if ((le32 a0 a1 a2 a3 =? crc32 data)
                      && (le32 z0 z1 z2 z3 =? Z.of_nat (String.length data) mod 4294967296))%Z
                  then
                    if is_empty rest then Some data
                    else match gunzip_members k rest with
                         | Some more => Some (data ++ more)
                         | None => None
                         end
                  else None
              | _ => None
              end
          end
      end
  end.

Definition gunzip_ref (s : string) : option string :=
  gunzip_members (String.length s) s.

Definition bytes_le (n : nat) (z : Z) : string :=
  (fix go (n : nat) (z : Z) : string :=
     match n with
     | O => EmptyString
     | S k => String (byte_of_Z z) (go k (z / 256)%Z)
     end) n z.

Definition string_of_bytes (l : list Z) : string :=
  fold_right (fun z s => String (byte_of_Z z) s) EmptyString l.

(** A gzip member that holds [payload] in one stored block (for
    payloads below 65536 bytes): what a server sends that does not
    compress. *)
Definition gzip_store (payload : string) : string :=
  let n := Z.of_nat (String.length payload) in
  string_of_bytes [0x1f; 0x8b; 8; 0; 0; 0; 0; 0; 0; 0xff; 1]%Z
  ++ bytes_le 2 n ++ bytes_le 2 (65535 - n)
  ++ payload
  ++ bytes_le 4 (crc32 payload) ++ bytes_le 4 n.

(** ** encoding/json

    [Unmarshal_ref] is [json.Unmarshal] into a zero [MarketData]: the
    whole text has to be one JSON value (RFC 8259, nesting at most
    10000 deep); an object fills the fields whose names match a member
    without regard to case, later members win, [null] leaves a field as
    it is, a member of the wrong kind makes the call fail. *)

Inductive json :=
| JNull
| JBool (b : bool)
| JNumber (lit : string)
| JString (s : string)
| JArray (items : list json)
| JObject (members : list (string * json)).

Fixpoint skip_ws (s : string) : string :=
  match s with
  | String c rest =>
      if ((bval c =? 32) || (bval c =? 9) || (bval c =? 13) || (bval c =? 10))%Z
      then skip_ws rest else s
  | EmptyString => s
  end.

Definition hexval (c : ascii) : option Z :=
  let v := bval c in
  if in_range 48 57 c then Some (v - 48)%Z
  else if in_range 97 102 c then Some (v - 87)%Z
  else if in_range 65 70 c then Some (v - 55)%Z
  else None.

(** [getu4] without its leading backslash and 'u': four hex digits. *)
Definition hex4 (s : string) : option (Z * string) :=
  match s with
  | String a (String b (String c (String d rest))) =>
      match hexval a, hexval b, hexval c, hexval d with
      | Some x, Some y, Some z, Some t =>
          Some ((((x * 16 + y) * 16 + z) * 16 + t)%Z, rest)
      | _, _, _, _ => None
      end
  | _ => None
  end.

(** [utf8.EncodeRune] *)
Definition EncodeRune (r : Z) : string :=
  let b (z : Z) := String (byte_of_Z z) EmptyString in
  let t (z : Z) := b (Z.lor 0x80 (Z.land z 0x3F)) in
  if (r <? 0x80)%Z then b r
  else if (r <? 0x800)%Z then b (Z.lor 0xC0 (Z.shiftr r 6)) ++ t r
  else if (r <? 0x10000)%Z then
    b (Z.lor 0xE0 (Z.shiftr r 12)) ++ t (Z.shiftr r 6) ++ t r
  else
    b (Z.lor 0xF0 (Z.shiftr r 18)) ++ t (Z.shiftr r 12) ++ t (Z.shiftr r 6) ++ t r.

Definition backslash : ascii := ascii_of_nat 92.

(** The text of a string literal after its opening quote: the decoded
    string and what follows the closing quote. *)
Fixpoint unquote (fuel : nat) (s : string) : option (string * string) :=
  match fuel with
  | O => None
  | S k =>
      let cons (p : string) (r : option (string * string)) :=
        match r with
        | Some (a, b) => Some (p ++ a, b)
        | None => None
        end in
      match s with
      | EmptyString => None
      | String c rest =>
          if byte_eqb c dquote then Some (EmptyString, rest)
          else if byte_eqb c backslash then
            match rest with
            | String e rest1 =>
                let simple (z : Z) := cons (String (byte_of_Z z) EmptyString)
                                           (unquote k rest1) in
                if byte_eqb e dquote then simple 34%Z
                else if byte_eqb e backslash then simple 92%Z
                else if byte_eqb e "/" then simple 47%Z
                else if byte_eqb e "b" then simple 8%Z
                else if byte_eqb e "f" then simple 12%Z
                else if byte_eqb e "n" then simple 10%Z
                else if byte_eqb e "r" then simple 13%Z
                else if byte_eqb e "t" then simple 9%Z
                else if byte_eqb e "u" then
                  match hex4 rest1 with
                  | None => None
                  | Some (rr, rest2) =>
                      if ((0xD800 <=? rr) && (rr <? 0xE000))%Z then
                        let pair :=
                          match rest2 with
                          | String b1 (String u1 rest3) =>
                              if byte_eqb b1 backslash && byte_eqb u1 "u" then
                                match hex4 rest3 with
                                | Some (r2, rest4) =>
                                    if ((rr <? 0xDC00) && (0xDC00 <=? r2) && (r2 <? 0xE000))%Z
                                    then Some ((Z.lor (Z.shiftl (rr - 0xD800) 10)
                                                      (r2 - 0xDC00) + 0x10000)%Z, rest4)
                                    else None
                                | None => None
                                end
                              else None
                          | _ => None
                          end in
                        match pair with
                        | Some (dec, rest4) => cons (EncodeRune dec) (unquote k rest4)
                        | None => cons (EncodeRune RuneError) (unquote k rest2)
                        end
                      else cons (EncodeRune rr) (unquote k rest2)
                  end
                else None
            | EmptyString => None
            end
          else if (bval c <? 0x20)%Z then None
          else if (bval c <? 0x80)%Z then cons (String c EmptyString) (unquote k rest)
          else
            let (r, w) := DecodeRune s in
            cons (EncodeRune r) (unquote k (slice_from s w))
      end
  end.

Fixpoint digits_of (s : string) : string * string :=
  match s with
  | String c rest =>
      if in_range 48 57 c
      then let (d, r) := digits_of rest in (String c d, r)
      else (EmptyString, s)
  | EmptyString => (EmptyString, s)
  end.

(** A JSON number: its text and what follows it. *)
Definition scan_number (s : string) : option (string * string) :=
  let (neg, s1) :=
    match s with
    | String c rest => if byte_eqb c "-" then ("-", rest) else (EmptyString, s)
    | EmptyString => (EmptyString, s)
    end in
  let (int, s2) := digits_of s1 in
  let int_ok :=
    match int with
    | EmptyString => false
    | String c EmptyString => true
    | String c _ => negb (byte_eqb c "0")
    end in
  if negb int_ok then None
  else
    let frac :=
      match s2 with
      | String c rest =>
          if byte_eqb c "." then
            let (d, r) := digits_of rest in
            if is_empty d then None else Some ("." ++ d, r)
          else Some (EmptyString, s2)
      | EmptyString => Some (EmptyString, s2)
      end in
    match frac with
    | None => None
    | Some (f, s3) =>
        match s3 with
        | String c rest =>
            if byte_in c "eE" then
              let (sg, s4) :=
                match rest with
                | String g rest' =>
                    if byte_in g "+-" then (String g EmptyString, rest')
                    else (EmptyString, rest)
                | EmptyString => (EmptyString, rest)
                end in
              let (d, r) := digits_of s4 in
              if is_empty d then None
              else Some (neg ++ int ++ f ++ String c EmptyString ++ sg ++ d, r)
            else Some (neg ++ int ++ f, s3)
        | EmptyString => Some (neg ++ int ++ f, s3)
        end
    end.

Definition strip_prefix (p s : string) : option string :=
  if String.prefix p s then Some (slice_from s (String.length p)) else None.

(** The scanner's limit on open arrays and objects. *)
Definition maxNestingDepth : nat := 10000.

(** A JSON value at the front of [s], below [depth] open containers.
    [parse_elements] and [parse_members] read the inside of an array
    and of an object; [first] says that nothing was read of it yet. *)
Fixpoint parse_value (fuel depth : nat) (s : string) : option (json * string) :=
  match fuel with
  | O => None
  | S k =>
      match skip_ws s with
      | EmptyString => None
      | String c rest as t =>
          if byte_eqb c "{" then
            if (maxNestingDepth <? S depth)%nat then None
            else match parse_members k (S depth) true rest with
                 | Some (ms, r) => Some (JObject ms, r)
                 | None => None
                 end
          else if byte_eqb c "[" then
            if (maxNestingDepth <? S depth)%nat then None
            else match parse_elements k (S depth) true rest with
                 | Some (xs, r) => Some (JArray xs, r)
                 | None => None
                 end
          else if byte_eqb c dquote then
            match unquote (String.length rest) rest with
            | Some (str, r) => Some (JString str, r)
            | None => None
            end
          else if byte_eqb c "t" then
            option_map (fun r => (JBool true, r)) (strip_prefix "true" t)
          else if byte_eqb c "f" then
            option_map (fun r => (JBool false, r)) (strip_prefix "false" t)
          else if byte_eqb c "n" then
            option_map (fun r => (JNull, r)) (strip_prefix "null" t)
          else
            match scan_number t with
            | Some (lit, r) => Some (JNumber lit, r)
            | None => None
            end
      end
  end
with parse_elements (fuel depth : nat) (first : bool) (s : string)
  : option (list json * string) :=
  match fuel with
  | O => None
  | S k =>
      match skip_ws s with
      | EmptyString => None
      | String c rest as t =>
          if first && byte_eqb c "]" then Some ([], rest)
          else
            match parse_value k depth t with
            | None => None
            | Some (x, r) =>
                match skip_ws r with
                | String d r' =>
                    if byte_eqb d "]" then Some ([x], r')
                    else if byte_eqb d "," then
                      match parse_elements k depth false r' with
                      | Some (xs, r'') => Some (x :: xs, r'')
                      | None => None
                      end
                    else None
                | EmptyString => None
                end
            end
      end
  end
with parse_members (fuel depth : nat) (first : bool) (s : string)
  : option (list (string * json) * string) :=
  match fuel with
  | O => None
  | S k =>
      match skip_ws s with
      | EmptyString => None
      | String c rest =>
          if first && byte_eqb c "}" then Some ([], rest)
          else if negb (byte_eqb c dquote) then None
          else
            match unquote (String.length rest) rest with
            | None => None
            | Some (key, r0) =>
                match skip_ws r0 with
                | String colon r1 =>
                    if negb (byte_eqb colon ":") then None
                    else
                      match parse_value k depth r1 with
                      | None => None
                      | Some (x, r) =>
                          match skip_ws r with
                          | String d r' =>
                              if byte_eqb d "}" then Some ([(key, x)], r')
                              else if byte_eqb d "," then
                                match parse_members k depth false r' with
                                | Some (ms, r'') => Some ((key, x) :: ms, r'')
                                | None => None
                                end
                              else None
                          | EmptyString => None
                          end
                      end
                | EmptyString => None
                end
            end
      end
  end.

(** The whole text as one JSON value. *)
Definition parse_json (data : string) : option json :=
  match parse_value (4 * String.length data + 4) 0 data with
  | Some (j, rest) => if is_empty (skip_ws rest) then Some j else None
  | None => None
  end.

Definition lower (c : ascii) : ascii :=
  if in_range 65 90 c then byte_of_Z (bval c + 32) else c.

Fixpoint lower_string (s : string) : string :=
  match s with
  | EmptyString => EmptyString
  | String c rest => String (lower c) (lower_string rest)
  end.

(** A member named [key] belongs to the field tagged [name]. *)
Definition names_field (key name : string) : bool :=
  String.eqb (lower_string key) (lower_string name).

(** Storing a value into a string field: the new content of the field,
    and whether the value was of a kind a string field takes. *)
Definition store_string (v : json) (old : string) : string * bool :=
  match v with
  | JString s => (s, true)
  | JNull => (old, true)
  | _ => (old, false)
  end.

(** The members of the object "data" into the field [Data.Price]. *)
Fixpoint decode_data (ms : list (string * json)) (price : string) : string * bool :=
  match ms with
  | [] => (price, true)
  | (key, v) :: rest =>
      if names_field key "p" then
        let (p1, ok1) := store_string v price in
        let (p2, ok2) := decode_data rest p1 in
        (p2, ok1 && ok2)
      else decode_data rest price
  end.

(** The members of the top-level object into a [MarketData]. *)
Fixpoint decode_market (ms : list (string * json)) (m : MarketData) : MarketData * bool :=
  match ms with
  | [] => (m, true)
  | (key, v) :: rest =>
      if names_field key "dataType" then
        let (d, ok1) := store_string v (md_DataType m) in
        let (m2, ok2) := decode_market rest (mkMarketData d (md_Price m)) in
        (m2, ok1 && ok2)
      else if names_field key "data" then
        let (p, ok1) :=
          match v with
          | JObject inner => decode_data inner (md_Price m)
          | JNull => (md_Price m, true)
          | _ => (md_Price m, false)
          end in
        let (m2, ok2) := decode_market rest (mkMarketData (md_DataType m) p) in
        (m2, ok1 && ok2)
      else decode_market rest m
  end.

Definition Unmarshal_ref (data : string) : option MarketData :=
  match parse_json data with
  | None => None
  | Some (JObject ms) =>
      let (m, ok) := decode_market ms (mkMarketData EmptyString EmptyString) in
      if ok then Some m else None
  | Some JNull => Some (mkMarketData EmptyString EmptyString)
  | Some _ => None
  end.

(** [json.Marshal] of a string: quotes, with the escapes of the encoder
    in its default (HTML-safe) mode. *)
Definition hexdigit (z : Z) : ascii :=
  if (z <? 10)%Z then byte_of_Z (48 + z) else byte_of_Z (87 + z).

Fixpoint quote_body (fuel : nat) (s : string) : string :=
  match fuel with
  | O => EmptyString
  | S k =>
      match s with
      | EmptyString => EmptyString
      | String c rest =>
          let esc (e : string) := String backslash e in
          if (bval c <? 0x80)%Z then
            (if byte_eqb c dquote then esc (String dquote EmptyString)
             else if byte_eqb c backslash then esc (String backslash EmptyString)
             else if (bval c =? 8)%Z then esc "b"
             else if (bval c =? 12)%Z then esc "f"
             else if (bval c =? 10)%Z then esc "n"
             else if (bval c =? 13)%Z then esc "r"
             else if (bval c =? 9)%Z then esc "t"
             else if (bval c <? 0x20)%Z || byte_in c "<>&" then
               esc ("u00" ++ String (hexdigit (bval c / 16)) (String (hexdigit (bval c mod 16)) EmptyString))
             else String c EmptyString)
            ++ quote_body k rest
          else
            let (r, w) := DecodeRune s in
            (if (r =? RuneError)%Z && (w =? 1)%nat then esc "ufffd"
             else if (r =? 0x2028)%Z then esc "u2028"
             else if (r =? 0x2029)%Z then esc "u2029"
             else EncodeRune r)
            ++ quote_body k (slice_from s w)
      end
  end.

Definition json_quote (s : string) : string :=
  String dquote (quote_body (String.length s) s) ++ String dquote EmptyString.

(** [json.Marshal] of a [Channel]: its three fields under their tags,
    in the order of the struct. *)
Definition Marshal_ref (c : Channel) : string :=
  quoted "{'id':" ++ json_quote (ID c)
  ++ quoted ",'reqType':" ++ json_quote (ReqType c)
  ++ quoted ",'dataType':" ++ json_quote (DataType c) ++ "}".

(** ** strconv and math

    The reference value of a float is the exact value of the literal:
    rounding to binary64 is left out, overflow is as in Go an error. *)

Inductive float_ref :=
| Finite (q : Q)
| Infinite (negative : bool)
| NaN.

Fixpoint commonPrefixLenIgnoreCase (s prefix : string) : nat :=
  match s, prefix with
  | String c s', String p prefix' =>
      if byte_eqb (lower c) p then S (commonPrefixLenIgnoreCase s' prefix')
      else O
  | _, _ => O
  end.

(** [special]: the value and the number of bytes used. *)
Definition special (s : string) : option (float_ref * nat) :=
  let inf (negative : bool) (nsign : nat) (t : string) :=
    let n := commonPrefixLenIgnoreCase t "infinity" in
    let n := if (3 <? n)%nat && (n <? 8)%nat then 3%nat else n in
    if (n =? 3)%nat || (n =? 8)%nat then Some (Infinite negative, (nsign + n)%nat)
    else None in
  match s with
  | EmptyString => None
  | String c rest =>
      if byte_in c "+-" then inf (byte_eqb c "-") 1%nat rest
      else if byte_in c "iI" then inf false 0%nat s
      else if byte_in c "nN" then
        if (commonPrefixLenIgnoreCase s "nan" =? 3)%nat then Some (NaN, 3%nat)
        else None
      else None
  end.

(** [underscoreOK]: underscores only between digits (the base prefix
    counts as a digit).  [saw] is the kind of the last byte: 0 for the
    beginning, 1 for a digit, 2 for an underscore, 3 for anything else. *)
Fixpoint underscore_scan (hex : bool) (saw : nat) (s : string) : bool :=
  match s with
  | EmptyString => negb (saw =? 2)%nat
  | String c rest =>
      if in_range 48 57 c || (hex && in_range 97 102 (lower c))
      then underscore_scan hex 1 rest
      else if byte_eqb c "_" then
        if (saw =? 1)%nat then underscore_scan hex 2 rest else false
      else if (saw =? 2)%nat then false
      else underscore_scan hex 3 rest
  end.

Definition underscoreOK (s : string) : bool :=
  let s := match s with
           | String c rest => if byte_in c "+-" then rest else s
           | EmptyString => s
           end in
  match s with
  | String z (String x rest) =>
      if byte_eqb z "0" && byte_in (lower x) "box"
      then underscore_scan (byte_eqb (lower x) "x") 1 rest
      else underscore_scan false 0 s
  | _ => underscore_scan false 0 s
  end.

(** The mantissa loop of [readFloat]: the digits as an integer, how
    many of them stand after the point, and what the loop saw. *)
Record mantissa := mkMantissa {
  mant : Z;
  nfrac : Z;
  sawdot : bool;
  sawdigits : bool;
  underscores : bool
}.

Fixpoint read_mantissa (base : Z) (m : mantissa) (s : string) : mantissa * string :=
  match s with
  | EmptyString => (m, s)
  | String c rest =>
      let digit (d : Z) :=
        read_mantissa base
          (mkMantissa (mant m * base + d)
                      (if sawdot m then nfrac m + 1 else nfrac m)
                      (sawdot m) true (underscores m)) rest in
      if byte_eqb c "_" then
        read_mantissa base
          (mkMantissa (mant m) (nfrac m) (sawdot m) (sawdigits m) true) rest
      else if byte_eqb c "." then
        if sawdot m then (m, s)
        else read_mantissa base
               (mkMantissa (mant m) (nfrac m) true (sawdigits m) (underscores m)) rest
      else if in_range 48 57 c then digit (bval c - 48)%Z
      else if (base =? 16)%Z && in_range 97 102 (lower c)
      then digit (bval (lower c) - 87)%Z
      else (m, s)
  end.

(** The digits of the exponent: its value (no longer added to once it
    has reached 10000), whether an underscore occurred, the rest. *)
Fixpoint read_exponent (e : Z) (us : bool) (s : string) : Z * bool * string :=
  match s with
  | EmptyString => (e, us, s)
  | String c rest =>
      if byte_eqb c "_" then read_exponent e true rest
      else if in_range 48 57 c then
        read_exponent (if (e <? 10000)%Z then e * 10 + (bval c - 48) else e)%Z us rest
      else (e, us, s)
  end.

Definition pow_Q (base : Z) (e : Z) : Q :=
  if (e <? 0)%Z then Qinv (inject_Z (base ^ (- e))) else inject_Z (base ^ e).

(** The largest magnitude that does not round to infinity lies below
    2^1024 - 2^970. *)
Definition overflows (q : Q) : bool :=
  Qle_bool (inject_Z (2 ^ 1024 - 2 ^ 970)) (Qabs q).

(** [strconv.ParseFloat(s, 64)] *)
Definition ParseFloat_ref (s : string) : option float_ref :=
  match special s with
  | Some (v, n) => if (n =? String.length s)%nat then Some v else None
  | None =>
      let (negative, s1) :=
        match s with
        | String c rest =>
            if byte_eqb c "+" then (false, rest)
            else if byte_eqb c "-" then (true, rest)
            else (false, s)
        | EmptyString => (false, s)
        end in
      let (hex, s2) :=
        match s1 with
        | String z (String x (String y rest)) =>
            if byte_eqb z "0" && byte_eqb (lower x) "x"
            then (true, String y rest) else (false, s1)
        | _ => (false, s1)
        end in
      let base := if hex then 16%Z else 10%Z in
      let expChar := if hex then "p"%char else "e"%char in
      let (m, s3) := read_mantissa base (mkMantissa 0 0 false false false) s2 in
      if negb (sawdigits m) then None
      else
        let tail : option (Z * bool * string) :=
          match s3 with
          | String c rest =>
              if byte_eqb (lower c) expChar then
                match rest with
                | EmptyString => None
                | String g rest' =>
                    let (esign, s4) :=
                      if byte_eqb g "+" then (1%Z, rest')
                      else if byte_eqb g "-" then ((-1)%Z, rest')
                      else (1%Z, rest) in
                    match s4 with
                    | String d _ =>
                        if in_range 48 57 d then
                          let '(e, us, s5) := read_exponent 0 false s4 in
                          Some ((e * esign)%Z, us, s5)
                        else None
                    | EmptyString => None
                    end
                end
              else if hex then None else Some (0%Z, false, s3)
          | EmptyString => if hex then None else Some (0%Z, false, s3)
          end in
        match tail with
        | None => None
        | Some (e, us, rest) =>
            if (underscores m || us) && negb (underscoreOK s) then None
            else if negb (is_empty rest) then None
            else
              let q := if hex
                       then Qmult (inject_Z (mant m)) (pow_Q 2 (e - 4 * nfrac m))
                       else Qmult (inject_Z (mant m)) (pow_Q 10 (e - nfrac m)) in
              let q := Qred (if negative then Qopp q else q) in
              if overflows q then None else Some (Finite q)
        end
  end.

(** [strconv.Atoi] on a 64-bit platform *)
Definition Atoi_ref (s : string) : option Z :=
  let (negative, digits) :=
    match s with
    | String c rest =>
        if byte_eqb c "-" then (true, rest)
        else if byte_eqb c "+" then (false, rest)
        else (false, s)
    | EmptyString => (false, s)
    end in
  let (d, rest) := digits_of digits in
  if is_empty d || negb (is_empty rest) then None
  else
    let n := fold_left (fun acc c => acc * 10 + (bval c - 48))%Z
                       (list_ascii_of_string d) 0%Z in
    let n := if negative then (- n)%Z else n in
    if ((- 2 ^ 63 <=? n) && (n <? 2 ^ 63))%Z then Some n else None.

(** [math.Ldexp] *)
Definition Ldexp_ref (f : float_ref) (e : Z) : float_ref :=
  match f with
  | Finite q => Finite (Qred (Qmult q (pow_Q 2 e)))
  | other => other
  end.

(** ** github.com/google/uuid

    The reference generator counts: its [n]-th identifier has the shape
    of a version-4 UUID and ends in [n], written with twelve hex digits. *)
Fixpoint hex_digits (k : nat) (z : Z) (acc : string) : string :=
  match k with
  | O => acc
  | S k' => hex_digits k' (z / 16)%Z (String (hexdigit (z mod 16)) acc)
  end.

Definition uuid_ref (n : nat) : string :=
  "00000000-0000-4000-8000-" ++ hex_digits 12 (Z.of_nat n) EmptyString.

(** ** The reference environment over a given network *)

Definition ref_env (dial : nat -> bool) (inb : conn_id -> nat -> read_result)
  (wr : conn_id -> nat -> bool) (cl : conn_id -> bool) : Env float_ref :=
  {| gunzip := gunzip_ref;
     json_Unmarshal := Unmarshal_ref;
     json_encode := Marshal_ref;
     ParseFloat := ParseFloat_ref;
     Atoi := Atoi_ref;
     Ldexp := Ldexp_ref;
     uuid_New := uuid_ref;
     dial_ok := dial;
     inbound := inb;
     write_ok := wr;
     close_ok := cl |}.

(** A network on which every dial, write and close succeeds and on
    which connection [c] delivers the read results [frames c] one after
    the other; after the last one its reads block. *)
Definition good_net (frames : conn_id -> list read_result) : Env float_ref :=
  ref_env (fun _ => true)
          (fun c k => nth k (frames c) RBlocked)
          (fun _ _ => true)
          (fun _ => true).

(** ** Scenarios

    The worlds and frames the examples below run on. *)

(** A channel and a market-data payload for it. *)
Definition btc_trade : string := "BTC-USDT@trade".

Definition btc_payload : string :=
  quoted "{'dataType':'BTC-USDT@trade','data':{'p':'100.50'}}".

(** A network on which nothing ever arrives. *)
Definition quiet_net : Env float_ref := good_net (fun _ => []).

(** A client for [btc_trade] with a callback, right after a successful
    [Connect] on the quiet network. *)
Definition streaming : World float_ref :=
  snd (Connect quiet_net (boot [btc_trade] true)).

Definition eth_trade : string := "ETH-USDT@trade".

(** The same for two channels. *)
Definition streaming2 : World float_ref :=
  snd (Connect quiet_net (boot [btc_trade; eth_trade] true)).

(** A network whose first connection fails at its first read and whose
    later connections have a market-data frame waiting. *)
Definition flaky_net : Env float_ref :=
  good_net (fun c => match c with
                     | O => [RError]
                     | S _ => [RFrame (gzip_store btc_payload)]
                     end).

(** A network whose connections all have a market-data frame waiting. *)
Definition busy_net : Env float_ref :=
  good_net (fun _ => [RFrame (gzip_store btc_payload)]).

(** A network on which no dial succeeds. *)
Definition dead_net : Env float_ref :=
  ref_env (fun _ => false) (fun _ _ => RBlocked) (fun _ _ => true)
          (fun _ => true).

(** A network on which dials succeed and every write is refused. *)
Definition mute_net : Env float_ref :=
  ref_env (fun _ => true) (fun _ _ => RBlocked) (fun _ _ => false)
          (fun _ => true).

(** The application connects, and the [listen] goroutine runs up to
    its first [ReadMessage]. *)
Definition until_first_read : list action :=
  [CallConnect; Listen 0; Listen 0].

(** A network on which only the first dial succeeds, and every read
    fails. *)
Definition lossy_net : Env float_ref :=
  ref_env (fun n => Nat.eqb n 0) (fun _ _ => RError) (fun _ _ => true)
          (fun _ => true).

(** A network on which no connection can be closed without an error. *)
Definition stuck_net : Env float_ref :=
  ref_env (fun _ => true) (fun _ _ => RBlocked) (fun _ _ => true)
          (fun _ => false).

(** * Properties *)

(** ** Strings *)

Lemma byte_eqb_refl (c : ascii) : byte_eqb c c = true.
Proof. apply Ascii.eqb_refl. Qed.

Lemma byte_eqb_eq (a b : ascii) : byte_eqb a b = true <-> a = b.
Proof. apply Ascii.eqb_eq. Qed.

Lemma IndexByte_absent (s : string) (b : ascii) :
  byte_in b s = false -> IndexByte s b = (-1)%Z.
Proof.
  induction s as [|c s IH]; simpl; intro H; [reflexivity|].
  rewrite Ascii.eqb_sym in H. fold (byte_eqb c b) in H.
  destruct (byte_eqb c b); [discriminate|].
  rewrite (IH H). reflexivity.
Qed.

Lemma IndexByte_nonneg_or_absent (s : string) (b : ascii) :
  (IndexByte s b = -1 \/ 0 <= IndexByte s b)%Z.
Proof.
  induction s as [|c s IH]; simpl; [now left|].
  destruct (byte_eqb c b); [right; lia|].
  destruct (Z.ltb_spec (IndexByte s b) 0); [now left | right; lia].
Qed.

(** The first occurrence: after a prefix without [b] the index is the
    length of the prefix. *)
Lemma IndexByte_first (pre post : string) (b : ascii) :
  byte_in b pre = false ->
  IndexByte (pre ++ String b post) b = Z.of_nat (String.length pre).
Proof.
  induction pre as [|c pre IH]; intro H.
  - simpl. now rewrite byte_eqb_refl.
  - simpl in H. rewrite Ascii.eqb_sym in H. fold (byte_eqb c b) in H.
    cbn [append IndexByte String.length].
    destruct (byte_eqb c b); [discriminate|].
    rewrite (IH H).
    destruct (Z.ltb_spec (Z.of_nat (String.length pre)) 0); lia.
Qed.

Lemma substring_prefix (pre rest : string) :
  substring 0 (String.length pre) (pre ++ rest) = pre.
Proof.
  induction pre as [|c pre IH]; simpl.
  - now destruct rest.
  - now rewrite IH.
Qed.

(** ** The symbol of a channel *)

Example parseSymbol_trade : parseSymbol "BTC-USDT@trade" = "BTC-USDT".
Proof. reflexivity. Qed.

Example parseSymbol_plain : parseSymbol "BTC-USDT" = "BTC-USDT".
Proof. reflexivity. Qed.

Example parseSymbol_leading_at : parseSymbol "@trade" = "@trade".
Proof. reflexivity. Qed.

Example parseSymbol_two_ats : parseSymbol "a@b@c" = "a".
Proof. reflexivity. Qed.

(** C7.  The symbol of a channel [s]: when the first '@' of [s] stands
    at an index greater than 0, the symbol is the part of [s] strictly
    before it; when [s] has no '@', or starts with '@', the symbol is
    [s] itself. *)
Theorem parseSymbol_before_first_at (s : string) :
  (forall pre post,
      s = pre ++ String "@" post -> byte_in "@" pre = false ->
      pre <> "" -> parseSymbol s = pre)
  /\ (byte_in "@" s = false -> parseSymbol s = s)
  /\ (forall post, s = String "@" post -> parseSymbol s = s).
Proof.
  unfold parseSymbol, IndexRune. repeat split.
  - intros pre post -> Hpre Hne.
    rewrite (IndexByte_first pre post "@" Hpre).
    destruct pre as [|c pre]; [congruence|].
    assert (Hpos : (Z.of_nat (String.length (String c pre)) >? 0)%Z = true).
    { apply Z.gtb_lt. simpl String.length. lia. }
    rewrite Hpos. unfold slice_to. rewrite Nat2Z.id.
    apply substring_prefix.
  - intro H. now rewrite (IndexByte_absent s "@" H).
  - intros post ->. reflexivity.
Qed.

(** ** Scanning a number *)

(** Facts about single bytes are settled by going through all 256. *)
Ltac by_bytes c :=
  destruct c as [[] [] [] [] [] [] [] []]; try discriminate; try reflexivity;
  cbn; auto.

Lemma digit_facts (d : ascii) :
  in_range 48 57 d = true ->
  byte_in d "nN" = false /\ byte_in d sign = false /\ byte_in d "iI" = false
  /\ byte_in d "xX" = false /\ byte_in d (decimalDigits ++ "_") = true
  /\ byte_in d "p" = false /\ (bval d <? 128)%Z = true
  /\ (bval d =? 13)%Z = false /\ (bval d =? 10)%Z = false
  /\ isSpace (bval d) = false.
Proof. by_bytes d; repeat split. Qed.

Lemma stop_facts (c : ascii) :
  byte_in c "0123456789_.eEpPxX" = false ->
  byte_in c (decimalDigits ++ "_") = false /\ byte_in c "xX" = false
  /\ byte_in c period = false /\ byte_in c exponent = false.
Proof. by_bytes c; repeat split. Qed.

Lemma exponent_mark_facts (e : ascii) :
  byte_in e "eE" = true ->
  byte_in e (decimalDigits ++ "_") = false /\ byte_in e "xX" = false
  /\ byte_in e period = false /\ byte_in e exponent = true
  /\ byte_in e "p" = false.
Proof. by_bytes e; repeat split. Qed.

Lemma exponent_stop_facts (c : ascii) :
  byte_in c "+-0123456789_" = false ->
  byte_in c sign = false /\ byte_in c (decimalDigits ++ "_") = false.
Proof. by_bytes c; repeat split. Qed.

Lemma append_assoc (a b c : string) : (a ++ b) ++ c = a ++ (b ++ c).
Proof. induction a as [|x a IH]; cbn; congruence. Qed.

Lemma append_nil_r (a : string) : a ++ "" = a.
Proof. induction a as [|x a IH]; cbn; congruence. Qed.

(** The loop [for s.accept(ok) {}] runs through the digits ... *)
Lemma accept_loop_digits (ds : string) : forall buf rest,
  all_digits ds = true ->
  accept_loop (decimalDigits ++ "_") buf (ds ++ rest) =
  accept_loop (decimalDigits ++ "_") (buf ++ ds) rest.
Proof.
  induction ds as [|d ds IH]; intros buf rest H.
  - cbn [append]. now rewrite append_nil_r.
  - cbn [all_digits] in H. apply andb_prop in H as [Hd Hds].
    destruct (digit_facts d Hd) as (_ & _ & _ & _ & Hin & _).
    cbn [append accept_loop]. rewrite Hin.
    rewrite (IH _ _ Hds), append_assoc. reflexivity.
Qed.

(** ... and stops in front of anything that is not in [ok]. *)
Lemma accept_loop_stop (ok buf rest : string) :
  match rest with
  | EmptyString => True
  | String c _ => byte_in c ok = false
  end ->
  accept_loop ok buf rest = (buf, rest).
Proof. destruct rest as [|c rest]; cbn; [auto | now intros ->]. Qed.

Lemma accept_stop (ok : string) (st : scan) :
  match snd st with
  | EmptyString => True
  | String c _ => byte_in c ok = false
  end ->
  accept ok st = (false, st).
Proof. unfold accept. destruct (snd st) as [|c rest]; [auto | now intros ->]. Qed.

Lemma accept_no (ok buf : string) (c : ascii) (rest : string) :
  byte_in c ok = false ->
  accept ok (buf, String c rest) = (false, (buf, String c rest)).
Proof. unfold accept. cbn [fst snd]. now intros ->. Qed.

Lemma accept_yes (ok buf : string) (c : ascii) (rest : string) :
  byte_in c ok = true ->
  accept ok (buf, String c rest) = (true, (buf ++ String c "", rest)).
Proof. unfold accept. cbn [fst snd]. now intros ->. Qed.

(** Digits hold no 'p', no 'x' and no 'X'. *)
Lemma digits_no_marks (ds : string) :
  all_digits ds = true ->
  byte_in "p" ds = false /\ byte_in "x" ds = false /\ byte_in "X" ds = false.
Proof.
  induction ds as [|d ds IH]; intro H; [now cbn|].
  cbn [all_digits] in H. apply andb_prop in H as [Hd Hds].
  destruct (IH Hds) as (Hp & Hx & HX).
  cbn [byte_in]. rewrite Hp, Hx, HX.
  clear - Hd. by_bytes d; repeat split.
Qed.

Lemma byte_in_app (c : ascii) (a b : string) :
  byte_in c (a ++ b) = byte_in c a || byte_in c b.
Proof.
  induction a as [|x a IH]; [reflexivity|].
  cbn [append byte_in]. rewrite IH. now destruct (byte_eqb c x).
Qed.

(** The float token of a text that starts with a decimal number:
    after the digits, the fraction and the exponent are still to come. *)
Lemma floatToken_integer_part (int tail : string) :
  all_digits int = true -> int <> "" ->
  match tail with
  | EmptyString => True
  | String c _ => byte_in c (decimalDigits ++ "_") = false
                  /\ byte_in c "xX" = false
  end ->
  floatToken (int ++ tail) =
  float_tail (decimalDigits ++ "_") exponent (int, tail).
Proof.
  intros Hint Hne Htail.
  destruct int as [|d int']; [congruence|].
  cbn [all_digits] in Hint. apply andb_prop in Hint as [Hd Hint'].
  destruct (digit_facts d Hd) as (HnN & Hsign & HiI & HxX & HDD & _).
  assert (Hnext : match (int' ++ tail) with
                  | EmptyString => True
                  | String c _ => byte_in c "xX" = false
                  end).
  { destruct int' as [|d' int'']; cbn [append].
    - destruct tail; [exact I | apply Htail].
    - cbn [all_digits] in Hint'. apply andb_prop in Hint' as [Hd' _].
      now destruct (digit_facts d' Hd') as (_ & _ & _ & Hx & _). }
  assert (Hloop : accept_loop (decimalDigits ++ "_") (String d "") (int' ++ tail)
                  = (String d int', tail)).
  { rewrite (accept_loop_digits int' _ _ Hint'). cbn [append].
    apply accept_loop_stop. destruct tail; [exact I | apply Htail]. }
  unfold floatToken, accept3. cbn [append].
  rewrite (accept_no "nN" _ _ _ HnN). cbv beta iota.
  rewrite (accept_no sign _ _ _ Hsign). cbn [snd].
  rewrite (accept_no "iI" _ _ _ HiI). cbv beta iota.
  destruct (byte_in d "0") eqn:Hzero.
  - rewrite (accept_yes "0" _ _ _ Hzero). cbv beta iota.
    rewrite (accept_stop "xX" ("" ++ String d "", int' ++ tail) Hnext).
    cbv beta iota.
    unfold accept_all. cbn [fst snd append]. now rewrite Hloop.
  - rewrite (accept_no "0" _ _ _ Hzero). cbv beta iota.
    unfold accept_all. cbn [fst snd accept_loop]. rewrite HDD.
    cbn [append]. now rewrite Hloop.
Qed.

Lemma float_tail_stop (buf junk : string) :
  stops_number junk = true ->
  float_tail (decimalDigits ++ "_") exponent (buf, junk) = (buf, junk).
Proof.
  intro H. unfold float_tail.
  destruct junk as [|c junk]; [reflexivity|].
  cbn [stops_number] in H. apply negb_true_iff in H.
  destruct (stop_facts c H) as (_ & _ & Hp & He).
  rewrite (accept_no period _ _ _ Hp). cbv beta iota.
  now rewrite (accept_no exponent _ _ _ He).
Qed.

Lemma float_tail_bare_exponent (buf junk : string) (e : ascii) :
  byte_in e "eE" = true -> stops_exponent junk = true ->
  float_tail (decimalDigits ++ "_") exponent (buf, String e junk) =
  (buf ++ String e "", junk).
Proof.
  intros He H. unfold float_tail.
  destruct (exponent_mark_facts e He) as (_ & _ & Hp & Hx & _).
  rewrite (accept_no period _ _ _ Hp). cbv beta iota.
  rewrite (accept_yes exponent _ _ _ Hx). cbv beta iota.
  destruct junk as [|c junk]; [reflexivity|].
  cbn [stops_exponent] in H. apply negb_true_iff in H.
  destruct (exponent_stop_facts c H) as (Hs & Hd).
  rewrite (accept_no sign _ _ _ Hs). cbn [snd].
  unfold accept_all. cbn [fst snd accept_loop]. now rewrite Hd.
Qed.

(** After the point the fraction is read, then the tail goes on. *)
Lemma float_tail_fraction (buf frac rest : string) :
  all_digits frac = true ->
  match rest with
  | EmptyString => True
  | String c _ => byte_in c (decimalDigits ++ "_") = false
                  /\ byte_in c period = false
  end ->
  float_tail (decimalDigits ++ "_") exponent (buf, "." ++ frac ++ rest) =
  float_tail (decimalDigits ++ "_") exponent (buf ++ "." ++ frac, rest).
Proof.
  intros Hf Hrest. unfold float_tail at 1. cbn [append].
  rewrite (accept_yes period buf "." (frac ++ rest) eq_refl). cbv beta iota.
  unfold accept_all. cbn [fst snd].
  rewrite (accept_loop_digits frac _ _ Hf).
  rewrite accept_loop_stop by (destruct rest; [exact I | apply Hrest]).
  rewrite append_assoc. cbn [append].
  unfold float_tail.
  destruct rest as [|c rest]; [reflexivity|].
  destruct Hrest as [_ Hp].
  now rewrite (accept_no period _ _ _ Hp).
Qed.

(** The shape of a decimal number: digits, and maybe a point and more
    digits. *)
Lemma floatToken_number (int frac : string) (dot : bool) (junk : string) :
  all_digits int = true -> int <> "" -> all_digits frac = true ->
  stops_number junk = true ->
  floatToken ((if dot then int ++ "." ++ frac else int) ++ junk) =
  ((if dot then int ++ "." ++ frac else int), junk).
Proof.
  intros Hi Hne Hf Hj.
  assert (Hhead : match junk with
                  | EmptyString => True
                  | String c _ =>
                      byte_in c (decimalDigits ++ "_") = false
                      /\ byte_in c "xX" = false /\ byte_in c period = false
                  end).
  { destruct junk as [|c junk]; [exact I|].
    cbn [stops_number] in Hj. apply negb_true_iff in Hj.
    destruct (stop_facts c Hj) as (H1 & H2 & H3 & _). auto. }
  destruct dot.
  - rewrite !append_assoc.
    rewrite floatToken_integer_part; auto; [|cbn [append]; split; reflexivity].
    rewrite float_tail_fraction; auto.
    + now apply float_tail_stop.
    + destruct junk; [exact I | tauto].
  - rewrite floatToken_integer_part; auto.
    + now apply float_tail_stop.
    + destruct junk; [exact I | tauto].
Qed.

(** A number directly followed by an exponent mark without exponent:
    the mark is taken into the token. *)
Lemma floatToken_bare_exponent (int frac : string) (dot : bool) (e : ascii)
  (junk : string) :
  all_digits int = true -> int <> "" -> all_digits frac = true ->
  byte_in e "eE" = true -> stops_exponent junk = true ->
  floatToken ((if dot then int ++ "." ++ frac else int) ++ String e junk) =
  ((if dot then int ++ "." ++ frac else int) ++ String e "", junk).
Proof.
  intros Hi Hne Hf He Hj.
  destruct (exponent_mark_facts e He) as (Hd & Hx & Hp & _).
  destruct dot.
  - rewrite !append_assoc.
    rewrite floatToken_integer_part; auto; [|cbn [append]; split; reflexivity].
    rewrite float_tail_fraction; auto.
    rewrite float_tail_bare_exponent; auto.
    now rewrite !append_assoc.
  - rewrite floatToken_integer_part; auto.
    now apply float_tail_bare_exponent.
Qed.

(** Nothing is skipped in front of a digit. *)
Lemma SkipSpace_digit (d : ascii) (rest : string) :
  in_range 48 57 d = true -> SkipSpace (String d rest) = Some (String d rest).
Proof.
  intro Hd.
  destruct (digit_facts d Hd) as (_ & _ & _ & _ & _ & _ & H128 & H13 & H10 & Hsp).
  unfold SkipSpace. cbn [String.length SkipSpace_loop DecodeRune].
  rewrite H128, H13, H10, Hsp. reflexivity.
Qed.

Section Properties.

Context {float64 : Type}.
Variable E : Env float64.

Implicit Types (w : World float64) (c : conn_id) (m : MarketData).

(** ** Histories *)

Lemma events_since_app w w' (evs : list (event float64)) :
  history w' = (history w ++ evs)%list -> events_since w w' = evs.
Proof.
  intro H. unfold events_since. rewrite H.
  rewrite skipn_app, skipn_all, Nat.sub_diag. reflexivity.
Qed.

Lemma events_since_refl w : events_since w w = [].
Proof. apply events_since_app. now rewrite app_nil_r. Qed.

Lemma closed_app c (h1 h2 : list (event float64)) :
  closed c (h1 ++ h2) = closed c h1 || closed c h2.
Proof. unfold closed. apply existsb_app. Qed.

(** Unfolding the monad and the primitive steps. *)
Ltac run_m :=
  unfold Close, sendPong, Sleep, log, close_quit, set_conn, set_ws,
    get_conn, get_quit, get_tokens, get_handler, connClose, WriteMessage,
    emit, bind, ret in *; cbn in *.

(** ** Close *)

(** After [Close] the shutdown mark is set and there is no connection,
    whatever the transport answered. *)
Lemma Close_post w :
  quit (ws (snd (Close E w))) = true /\ conn (ws (snd (Close E w))) = None.
Proof.
  destruct w as [[p [c|] t h q] hist u d ts]; run_m;
    destruct q; cbn; try destruct (close_ok E c); cbn; auto.
Qed.

(** [Close] on a client without a connection whose shutdown mark is
    set changes nothing and returns nil. *)
Lemma Close_noop w :
  quit (ws w) = true -> conn (ws w) = None -> Close E w = (None, w).
Proof.
  destruct w as [[p c t h q] hist u d ts]; cbn; intros -> ->. reflexivity.
Qed.

(** What [Close] records: closing the current handle, and a log line
    when that went well. *)
Lemma Close_history w :
  history (snd (Close E w)) =
  (history w ++
   match conn (ws w) with
   | Some c => EvConnClose c (close_ok E c)
               :: (if close_ok E c then [EvLog LogClosed] else [])
   | None => []
   end)%list.
Proof.
  destruct w as [[p [c|] t h q] hist u d ts]; run_m.
  - destruct q; cbn; destruct (close_ok E c); cbn;
      rewrite <- ?app_assoc; reflexivity.
  - destruct q; cbn; now rewrite app_nil_r.
Qed.

(** The transport handles closed by [Close]: the current one, once. *)
Lemma Close_closes_current w :
  filter is_conn_close (events_since w (snd (Close E w))) =
  match conn (ws w) with
  | Some c => [EvConnClose c (close_ok E c)]
  | None => []
  end.
Proof.
  rewrite (events_since_app _ _ _ (Close_history w)).
  destruct (conn (ws w)) as [c|]; [|reflexivity].
  destruct (close_ok E c); reflexivity.
Qed.

(** C8.  Two calls of [Close] in a row: the second returns nil, closes
    no transport handle and records nothing, and the client is left
    without a connection; over both calls the handle that was live at
    the first call is closed exactly once. *)
Theorem Close_twice_idempotent w :
  let w1 := snd (Close E w) in
  let r2 := fst (Close E w1) in
  let w2 := snd (Close E w1) in
  r2 = None
  /\ w2 = w1
  /\ filter is_conn_close (events_since w1 w2) = []
  /\ conn (ws w2) = None
  /\ filter is_conn_close (events_since w w2) =
     match conn (ws w) with
     | Some c => [EvConnClose c (close_ok E c)]
     | None => []
     end.
Proof.
  intros w1 r2 w2.
  destruct (Close_post w) as [Hq Hc]. fold w1 in Hq, Hc.
  assert (H2 : Close E w1 = (None, w1)) by now apply Close_noop.
  subst r2 w2. rewrite H2. cbn [fst snd].
  repeat split; auto.
  - now rewrite events_since_refl.
  - apply Close_closes_current.
Qed.

(** ** The message dispatcher *)

Lemma is_empty_true (s : string) : is_empty s = true <-> s = "".
Proof. destruct s; cbn; split; congruence. Qed.

Lemma is_empty_false (s : string) : is_empty s = false <-> s <> "".
Proof. destruct s; cbn; split; congruence. Qed.

(** What [dispatch] records: its entry, then nothing for an empty
    field, a log line for a price that does not parse, and else the
    call of the handler if there is one. *)
Lemma dispatch_history w m :
  history (snd (dispatch E m w)) =
  (history w ++ EvDispatch m ::
   if is_empty (md_DataType m) || is_empty (md_Price m) then []
   else match parsePrice E (md_Price m) with
        | None => [EvLog (LogInvalidPrice (md_Price m))]
        | Some v =>
            if messageHandler (ws w)
            then [EvHandler (mkPriceUpdate "priceUpdate"
                               (parseSymbol (md_DataType m)) v)]
            else []
        end)%list.
Proof.
  unfold dispatch. run_m.
  destruct (is_empty (md_DataType m) || is_empty (md_Price m)); [reflexivity|].
  destruct (parsePrice E (md_Price m)) as [v|]; cbn.
  - destruct (messageHandler (ws w)); cbn; rewrite <- ?app_assoc; reflexivity.
  - rewrite <- app_assoc. reflexivity.
Qed.

(** [dispatch] touches nothing but the history. *)
Lemma dispatch_frame w m :
  ws (snd (dispatch E m w)) = ws w
  /\ tasks (snd (dispatch E m w)) = tasks w
  /\ uuids (snd (dispatch E m w)) = uuids w
  /\ dials (snd (dispatch E m w)) = dials w.
Proof.
  unfold dispatch. run_m.
  destruct (is_empty (md_DataType m) || is_empty (md_Price m)); [now cbn|].
  destruct (parsePrice E (md_Price m)) as [v|]; cbn; [|auto].
  destruct (messageHandler (ws w)); cbn; auto.
Qed.

(** C5.  With a consumer callback registered, [dispatch] calls it if
    and only if the frame's channel is not empty, its price text is not
    empty and the price text parses; the call carries the update built
    from the frame.  A frame with an empty channel or an empty price
    text is dropped with nothing logged; a frame with both fields set
    whose price text does not parse is dropped with one "invalid price"
    log line.  [dispatch] has no result, so no error reaches its caller,
    and it leaves the client's fields and goroutines as they are. *)
Theorem dispatch_calls_handler_iff w m :
  messageHandler (ws w) = true ->
  let w' := snd (dispatch E m w) in
  let evs := events_since w w' in
  ((exists u, In (EvHandler u) evs) <->
   md_DataType m <> "" /\ md_Price m <> "" /\ parsePrice E (md_Price m) <> None)
  /\ (forall v, md_DataType m <> "" -> md_Price m <> "" ->
        parsePrice E (md_Price m) = Some v ->
        evs = [EvDispatch m;
               EvHandler (mkPriceUpdate "priceUpdate"
                            (parseSymbol (md_DataType m)) v)])
  /\ (md_DataType m = "" \/ md_Price m = "" -> evs = [EvDispatch m])
  /\ (md_DataType m <> "" -> md_Price m <> "" ->
        parsePrice E (md_Price m) = None ->
        evs = [EvDispatch m; EvLog (LogInvalidPrice (md_Price m))])
  /\ ws w' = ws w /\ tasks w' = tasks w.
Proof.
  intros Hh w' evs.
  assert (Hevs : evs =
    EvDispatch m ::
    if is_empty (md_DataType m) || is_empty (md_Price m) then []
    else match parsePrice E (md_Price m) with
         | None => [EvLog (LogInvalidPrice (md_Price m))]
         | Some v => [EvHandler (mkPriceUpdate "priceUpdate"
                                   (parseSymbol (md_DataType m)) v)]
         end).
  { subst evs w'. rewrite (events_since_app _ _ _ (dispatch_history w m)).
    now rewrite Hh. }
  clearbody evs. subst evs.
  destruct (dispatch_frame w m) as (Hws & Hts & _).
  destruct (is_empty (md_DataType m)) eqn:Hd;
    [apply is_empty_true in Hd | apply is_empty_false in Hd];
    (destruct (is_empty (md_Price m)) eqn:Hp;
     [apply is_empty_true in Hp | apply is_empty_false in Hp]); cbn [orb].
  1-3: (split; [split; [intros [u Hin]; cbn in Hin;
                        repeat (destruct Hin as [Hin|Hin]; try discriminate);
                        contradiction
                      | intros (H1 & H2 & H3); congruence]
              | repeat split; auto; intros; try congruence; tauto]).
  destruct (parsePrice E (md_Price m)) as [v|] eqn:Hv.
  - split; [split; [intros _; repeat split; congruence
                   | intros _; eexists; right; left; reflexivity]|].
    repeat split; auto; intros; try congruence; tauto.
  - split; [split; [intros [u Hin]; cbn in Hin;
                    repeat (destruct Hin as [Hin|Hin]; try discriminate);
                    contradiction
                   | intros (H1 & H2 & H3); congruence]|].
    repeat split; auto; intros; try congruence; tauto.
Qed.

(** ** The frame codec and the heartbeat *)

Lemma sendPong_history w :
  history (snd (sendPong E w)) =
  (history w ++
   match conn (ws w) with
   | Some c =>
       [EvWrite c "Pong"
          (negb (closed c (history w))
           && write_ok E c (writes_on c (history w)))]
   | None => []
   end)%list.
Proof.
  destruct w as [[p [c|] t h q] hist u d ts]; run_m;
    [reflexivity | now rewrite app_nil_r].
Qed.

Lemma handleMessage_ping w raw :
  decompress E raw = Some "Ping" -> handleMessage E raw w = sendPong E w.
Proof. unfold handleMessage. now intros ->. Qed.

(** C6.  A frame that decompresses to the four bytes "Ping" makes the
    client write one text frame "Pong" on its current connection and
    nothing else: the dispatcher is not entered. *)
Theorem ping_is_answered_with_one_pong w raw c :
  decompress E raw = Some "Ping" ->
  conn (ws w) = Some c ->
  let evs := events_since w (snd (handleMessage E raw w)) in
  (exists ok, evs = [EvWrite c "Pong" ok])
  /\ written evs = ["Pong"]
  /\ filter is_dispatch evs = [].
Proof.
  intros Hraw Hc evs. subst evs.
  rewrite (handleMessage_ping w raw Hraw).
  rewrite (events_since_app _ _ _ (sendPong_history w)), Hc.
  repeat split; eauto.
Qed.

(** Without a connection a "Ping" is swallowed: no write, no dispatch. *)
Lemma ping_without_connection w raw :
  decompress E raw = Some "Ping" ->
  conn (ws w) = None ->
  events_since w (snd (handleMessage E raw w)) = [].
Proof.
  intros Hraw Hc.
  rewrite (handleMessage_ping w raw Hraw).
  now rewrite (events_since_app _ _ _ (sendPong_history w)), Hc.
Qed.

(** What the events of [dispatch] contain besides the handler call. *)
Lemma dispatch_events_shape w m :
  let evs := events_since w (snd (dispatch E m w)) in
  written evs = [] /\ filter is_dispatch evs = [EvDispatch m].
Proof.
  cbn zeta. rewrite (events_since_app _ _ _ (dispatch_history w m)).
  destruct (is_empty (md_DataType m) || is_empty (md_Price m)); [now cbn|].
  destruct (parsePrice E (md_Price m)); [|now cbn].
  destruct (messageHandler (ws w)); now cbn.
Qed.

Lemma log_history w (l : logline) :
  history (snd (log l w)) = (history w ++ [EvLog l])%list.
Proof. reflexivity. Qed.

(** C3, as the code has it.  The control-frame check is made on the
    decompressed payload only: a frame that does not decompress is
    dropped with a log line whatever its raw bytes are.  Exactly the
    payload "Ping" is a control frame: it is answered and neither
    logged nor dispatched.  Every other payload, "Pong" included, goes
    to the JSON decoder: it reaches the dispatcher if and only if it
    decodes, and is dropped with a "JSON decode failed" log line if it
    does not; nothing is written for it. *)
Theorem handleMessage_ping_then_json w raw :
  let evs := events_since w (snd (handleMessage E raw w)) in
  (decompress E raw = None -> evs = [EvLog LogDecompressionFailed])
  /\ (decompress E raw = Some "Ping" ->
        filter is_dispatch evs = [] /\ filter is_log evs = []
        /\ written evs = match conn (ws w) with
                         | Some _ => ["Pong"]
                         | None => []
                         end)
  /\ (forall data, decompress E raw = Some data -> data <> "Ping" ->
        written evs = []
        /\ match json_Unmarshal E data with
           | Some market =>
               handleMessage E raw w = dispatch E market w
               /\ filter is_dispatch evs = [EvDispatch market]
           | None => evs = [EvLog LogJSONDecodeFailed]
           end)
  /\ (decompress E raw = Some "Pong" -> json_Unmarshal E "Pong" = None ->
        evs = [EvLog LogJSONDecodeFailed]).
Proof.
  cbn zeta. repeat split.
  - intro H. unfold handleMessage. rewrite H.
    now rewrite (events_since_app _ _ _ (log_history w _)).
  - rewrite (handleMessage_ping w raw H).
    rewrite (events_since_app _ _ _ (sendPong_history w)).
    now destruct (conn (ws w)).
  - rewrite (handleMessage_ping w raw H).
    rewrite (events_since_app _ _ _ (sendPong_history w)).
    now destruct (conn (ws w)).
  - rewrite (handleMessage_ping w raw H).
    rewrite (events_since_app _ _ _ (sendPong_history w)).
    now destruct (conn (ws w)).
  - unfold handleMessage. rewrite H.
    apply String.eqb_neq in H0. rewrite H0.
    destruct (json_Unmarshal E data) as [market|].
    + apply dispatch_events_shape.
    + now rewrite (events_since_app _ _ _ (log_history w _)).
  - unfold handleMessage. rewrite H.
    apply String.eqb_neq in H0. rewrite H0.
    destruct (json_Unmarshal E data) as [market|].
    + split; [reflexivity | apply dispatch_events_shape].
    + now rewrite (events_since_app _ _ _ (log_history w _)).
  - intros H H0. unfold handleMessage. rewrite H. cbn. rewrite H0.
    now rewrite (events_since_app _ _ _ (log_history w _)).
Qed.

(** ** The subscription protocol *)

Lemma written_filter (l : list (event float64)) :
  written l = written (filter is_write l).
Proof.
  unfold written. induction l as [|e l IHl]; [reflexivity|].
  destruct e; cbn [flat_map filter is_write app]; congruence.
Qed.

Lemma written_writes c (ok : bool) (payloads : list string) :
  written (map (fun d => EvWrite (float64 := float64) c d ok) payloads) = payloads.
Proof.
  unfold written. induction payloads as [|d l IHl]; [reflexivity|].
  cbn [map flat_map app]. congruence.
Qed.

Lemma requests_for_cons (k : nat) (tok : string) (rest : list string) :
  requests_for E k (tok :: rest) =
  mkChannel (uuid_New E k) "sub" tok :: requests_for E (S k) rest.
Proof. reflexivity. Qed.

Lemma requests_for_facts (toks : list string) : forall k,
  List.length (requests_for E k toks) = List.length toks
  /\ map DataType (requests_for E k toks) = toks
  /\ Forall (fun r => ReqType r = "sub") (requests_for E k toks)
  /\ map ID (requests_for E k toks) =
     map (uuid_New E) (seq k (List.length toks)).
Proof.
  induction toks as [|tok rest IH]; intro k.
  - repeat split. constructor.
  - rewrite requests_for_cons.
    destruct (IH (S k)) as (Hl & Hd & Hr & Hi).
    cbn [List.length map seq DataType ID].
    rewrite Hl, Hd, Hi. repeat split. constructor; auto.
Qed.

(** One round of the loop of [subscribeAll] on a client with a
    connection: draw an identifier, write the request, and go on if the
    write went well. *)
Lemma subscribe_loop_cons (i n : nat) (tok : string) (rest : list string) w c :
  conn (ws w) = Some c ->
  subscribe_loop E i n (tok :: rest) w =
  let data := json_encode E (mkChannel (uuid_New E (uuids w)) "sub" tok) in
  if negb (closed c (history w)) && write_ok E c (writes_on c (history w))
  then subscribe_loop E (S i) n rest
         (mkWorld (ws w)
            (history w ++ [EvWrite c data true; EvLog (LogSubscribed tok (i + 1) n)]
                       ++ (if (i <? n - 1)%nat then [EvSleep 100] else []))
            (S (uuids w)) (dials w) (tasks w))
  else (Some (ErrSubscribe tok),
        mkWorld (ws w) (history w ++ [EvWrite c data false])
                (S (uuids w)) (dials w) (tasks w)).
Proof.
  intro Hc. destruct w as [s hist u d ts]. cbn [ws] in Hc.
  cbn [subscribe_loop].
  unfold uuid_String, json_Marshal, bind, get_conn, WriteMessage, log, Sleep,
    emit, ret.
  cbn [ws uuids history dials tasks fst snd]. rewrite Hc.
  cbn [ws uuids history dials tasks fst snd].
  destruct (negb (closed c hist) && write_ok E c (writes_on c hist));
    [|reflexivity].
  destruct (i <? n - 1)%nat; cbn [ws uuids history dials tasks fst snd];
    rewrite <- ?app_assoc; reflexivity.
Qed.

(** A subscribe phase that returns nil has written the request of
    every channel, in order, each write accepted, and has done nothing
    else than write, log and sleep. *)
Lemma subscribe_loop_success c (toks : list string) : forall i n w,
  conn (ws w) = Some c ->
  fst (subscribe_loop E i n toks w) = None ->
  exists evs,
    history (snd (subscribe_loop E i n toks w)) = (history w ++ evs)%list
    /\ filter is_write evs =
       map (fun r => EvWrite c (json_encode E r) true)
           (requests_for E (uuids w) toks)
    /\ filter is_go_listen evs = []
    /\ filter is_dial evs = []
    /\ filter is_conn_close evs = []
    /\ ws (snd (subscribe_loop E i n toks w)) = ws w
    /\ tasks (snd (subscribe_loop E i n toks w)) = tasks w.
Proof.
  induction toks as [|tok rest IH]; intros i n w Hc Hres.
  - exists []. cbn. rewrite app_nil_r. repeat split.
  - rewrite (subscribe_loop_cons i n tok rest w c Hc) in Hres |- *.
    cbn zeta in Hres |- *.
    destruct (negb (closed c (history w)) && write_ok E c (writes_on c (history w)));
      [|discriminate].
    match type of Hres with
    | fst (subscribe_loop E _ _ _ ?w1) = _ =>
        destruct (IH (S i) n w1 Hc Hres) as (evs & Hh & Hw & Hg & Hd & Hcl & Hws & Hts)
    end.
    cbn [history uuids ws tasks] in Hh, Hw, Hws, Hts.
    eexists. split; [rewrite Hh; rewrite <- !app_assoc; reflexivity|].
    rewrite requests_for_cons. rewrite !filter_app.
    rewrite Hw, Hg, Hd, Hcl.
    destruct (i <? n - 1)%nat; cbn; repeat split; auto.
Qed.

(** On a live connection that accepts every write the subscribe phase
    returns nil. *)
Lemma subscribe_loop_returns_nil c (toks : list string) : forall i n w,
  conn (ws w) = Some c ->
  closed c (history w) = false ->
  (forall k, write_ok E c k = true) ->
  fst (subscribe_loop E i n toks w) = None.
Proof.
  induction toks as [|tok rest IH]; intros i n w Hc Hcl Hw; [reflexivity|].
  rewrite (subscribe_loop_cons i n tok rest w c Hc). cbn zeta.
  rewrite Hcl, Hw. cbn [negb andb].
  apply IH; auto. cbn [history].
  rewrite !closed_app, Hcl.
  destruct (i <? n - 1)%nat; reflexivity.
Qed.

(** C4.  On a live connection that accepts every write, and with an
    identifier source that does not repeat itself over the phase, the
    subscribe phase for a channel list of length N returns nil and
    makes exactly N writes, one per channel and in the order of the
    list; each carries the encoding of a request whose channel is the
    configured string, whose type is "sub" and whose identifier is
    different from all the others. *)
Theorem subscribeAll_sends_one_request_per_channel w c :
  conn (ws w) = Some c ->
  closed c (history w) = false ->
  (forall k, write_ok E c k = true) ->
  NoDup (map (uuid_New E) (seq (uuids w) (List.length (tokens (ws w))))) ->
  let evs := events_since w (snd (subscribeAll E w)) in
  let reqs := requests_for E (uuids w) (tokens (ws w)) in
  fst (subscribeAll E w) = None
  /\ filter is_write evs = map (fun r => EvWrite c (json_encode E r) true) reqs
  /\ written evs = map (json_encode E) reqs
  /\ List.length reqs = List.length (tokens (ws w))
  /\ map DataType reqs = tokens (ws w)
  /\ Forall (fun r => ReqType r = "sub") reqs
  /\ NoDup (map ID reqs).
Proof.
  intros Hc Hcl Hw Hnd evs reqs.
  assert (Hnil : fst (subscribeAll E w) = None).
  { unfold subscribeAll, get_tokens, bind. now apply subscribe_loop_returns_nil with c. }
  destruct (subscribe_loop_success c (tokens (ws w)) 0
              (List.length (tokens (ws w))) w Hc Hnil)
    as (evs' & Hh & Hwr & _).
  assert (Hevs : evs = evs') by (now apply events_since_app).
  destruct (requests_for_facts (tokens (ws w)) (uuids w)) as (Hl & Hd & Hr & Hi).
  subst reqs. rewrite Hevs.
  repeat split; auto.
  - rewrite written_filter, Hwr.
    rewrite <- (map_map (json_encode E) (fun d => EvWrite c d true)).
    apply written_writes.
  - now rewrite Hi.
Qed.

(** ** Parsing a price *)

Lemma convertFloat_plain (str : string) :
  byte_in "p" str = false -> convertFloat E str = ParseFloat E str.
Proof.
  intro H. unfold convertFloat, IndexRune.
  now rewrite (IndexByte_absent str "p" H).
Qed.

(** [Sscanf] on a text that starts with a digit and whose float token
    has no 'p': the token goes to [strconv], the rest is not looked at. *)
Lemma parsePrice_of_token (d : ascii) (s tok rest : string) :
  in_range 48 57 d = true ->
  floatToken (String d s) = (tok, rest) ->
  byte_in "p" tok = false ->
  parsePrice E (String d s) = ParseFloat E tok.
Proof.
  intros Hd Htok Hp. unfold parsePrice, Sscanf_f.
  rewrite !(SkipSpace_digit d s Hd). cbn [is_empty].
  rewrite Htok. cbn [fst]. now apply convertFloat_plain.
Qed.

(** C10, as the code has it.  Let the price text be a decimal number
    (digits, and maybe a point and more digits) followed by [junk].
    If [junk] does not start with a digit, an underscore, a point or
    one of e E p P x X, parsing gives what [strconv] gives for the
    number alone, and for a frame with a channel and a client with a
    callback the callback gets the update with that value.  If the
    number is directly followed by an exponent mark e or E that has no
    exponent behind it, the mark belongs to the token: parsing gives
    what [strconv] gives for the number with the mark, which is an
    error for every number. *)
Theorem parsePrice_reads_number_and_ignores_rest
  (int frac junk : string) (dot : bool) :
  all_digits int = true -> int <> "" -> all_digits frac = true ->
  let number := if dot then int ++ "." ++ frac else int in
  (stops_number junk = true ->
     parsePrice E (number ++ junk) = ParseFloat E number)
  /\ (forall w ch v,
        stops_number junk = true -> ch <> "" ->
        messageHandler (ws w) = true ->
        ParseFloat E number = Some v ->
        events_since w (snd (dispatch E (mkMarketData ch (number ++ junk)) w)) =
        [EvDispatch (mkMarketData ch (number ++ junk));
         EvHandler (mkPriceUpdate "priceUpdate" (parseSymbol ch) v)])
  /\ (forall e, byte_in e "eE" = true -> stops_exponent junk = true ->
        parsePrice E (number ++ String e junk) =
        ParseFloat E (number ++ String e "")).
Proof.
  intros Hi Hne Hf number.
  assert (Hhead : exists d s, int = String d s /\ in_range 48 57 d = true).
  { destruct int as [|d s]; [congruence|]. exists d, s. split; auto.
    cbn [all_digits] in Hi. now apply andb_prop in Hi. }
  destruct Hhead as (d & s & Hds & Hd).
  assert (Hnum : forall t, exists s', number ++ t = String d s').
  { intro t. subst number int. destruct dot; cbn [append]; eauto. }
  assert (Hnop : byte_in "p" number = false).
  { subst number. destruct (digits_no_marks int Hi) as (Hp & _).
    destruct (digits_no_marks frac Hf) as (Hp' & _).
    destruct dot; auto.
    rewrite !byte_in_app, Hp, Hp'. reflexivity. }
  assert (Hparse : stops_number junk = true ->
                   parsePrice E (number ++ junk) = ParseFloat E number).
  { intro Hj. destruct (Hnum junk) as (s' & Hs'). rewrite Hs'.
    apply parsePrice_of_token with (rest := junk); auto. rewrite <- Hs'.
    now apply floatToken_number. }
  split; [exact Hparse|]. split.
  - intros w ch v Hj Hch Hh Hv.
    rewrite (events_since_app _ _ _ (dispatch_history w _)).
    cbn [md_DataType md_Price].
    apply is_empty_false in Hch. rewrite Hch. cbn [orb].
    destruct (Hnum junk) as (s' & Hs').
    replace (is_empty (number ++ junk)) with false by now rewrite Hs'.
    now rewrite (Hparse Hj), Hv, Hh.
  - intros e He Hj. destruct (Hnum (String e junk)) as (s' & Hs'). rewrite Hs'.
    apply parsePrice_of_token with (rest := junk); auto.
    + rewrite <- Hs'. now apply floatToken_bare_exponent.
    + rewrite byte_in_app, Hnop.
      destruct (exponent_mark_facts e He) as (_ & _ & _ & _ & Hp).
      cbn [byte_in orb]. destruct (byte_eqb "p" e) eqn:Heq; [|reflexivity].
      apply byte_eqb_eq in Heq. subst e. discriminate.
Qed.

(** ** Connect *)

Lemma Connect_unfold w :
  Connect E w =
  if dial_ok E (dials w) then
    subscribeAll E
      (mkWorld
         (mkWS (path (ws w)) (Some (dials w)) (tokens (ws w))
               (messageHandler (ws w)) (quit (ws w)))
         (history w ++ [EvDial (path (ws w)) (Some (dials w));
                        EvLog LogConnected; EvGoListen])
         (uuids w) (S (dials w)) (tasks w ++ [AtLoop]))
  else (Some ErrDial,
        mkWorld (ws w) (history w ++ [EvDial (path (ws w)) None])
                (uuids w) (S (dials w)) (tasks w)).
Proof.
  destruct w as [s hist u d ts].
  unfold Connect, Dial, bind, set_conn, set_ws, log, go_listen, emit, ret.
  cbn [ws uuids history dials tasks fst snd].
  destruct (dial_ok E d); [|reflexivity].
  cbn [ws uuids history dials tasks fst snd].
  rewrite <- !app_assoc. reflexivity.
Qed.

(** C9, as the code has it.  A [Connect] that returns nil has dialed,
    then stored the connection and started the one [listen] goroutine,
    and only then run the subscribe phase: every subscribe request is
    written after the goroutine was started, and neither a dial nor
    another goroutine start follows. *)
Theorem Connect_starts_listener_then_subscribes w :
  fst (Connect E w) = None ->
  exists c sub,
    events_since w (snd (Connect E w)) =
      ([EvDial (path (ws w)) (Some c); EvLog LogConnected; EvGoListen] ++ sub)%list
    /\ filter is_write sub =
       map (fun r => EvWrite c (json_encode E r) true)
           (requests_for E (uuids w) (tokens (ws w)))
    /\ filter is_go_listen sub = []
    /\ filter is_dial sub = []
    /\ conn (ws (snd (Connect E w))) = Some c
    /\ tasks (snd (Connect E w)) = (tasks w ++ [AtLoop])%list.
Proof.
  rewrite Connect_unfold.
  destruct (dial_ok E (dials w)); [|discriminate].
  unfold subscribeAll, get_tokens, bind. cbn [ws tokens].
  intro Hres.
  match type of Hres with
  | fst (subscribe_loop E _ _ _ ?w1) = _ =>
      destruct (subscribe_loop_success (dials w) (tokens (ws w)) 0
                  (List.length (tokens (ws w))) w1 eq_refl Hres)
        as (evs & Hh & Hw & Hg & Hd & _ & Hws & Hts)
  end.
  cbn [history uuids ws tasks] in Hh, Hw, Hws, Hts.
  exists (dials w), evs. repeat split; auto.
  - apply events_since_app. rewrite Hh, <- app_assoc. reflexivity.
  - now rewrite Hws.
Qed.

(** ** The shutdown mark and the goroutines *)

Lemma subscribe_loop_no_conn (i n : nat) (tok : string) (rest : list string) w :
  conn (ws w) = None ->
  subscribe_loop E i n (tok :: rest) w =
  (Some ErrNotConnected,
   mkWorld (ws w) (history w) (S (uuids w)) (dials w) (tasks w)).
Proof.
  intro Hc. destruct w as [s hist u d ts]. cbn [ws] in Hc.
  cbn [subscribe_loop].
  unfold uuid_String, json_Marshal, bind, get_conn, ret.
  cbn [ws uuids history dials tasks fst snd]. now rewrite Hc.
Qed.

(** The subscribe phase, however it ends, reads nothing, leaves the
    client's fields alone and starts no goroutine. *)
Lemma subscribe_loop_frame (toks : list string) : forall i n w,
  exists evs,
    history (snd (subscribe_loop E i n toks w)) = (history w ++ evs)%list
    /\ filter is_inbound evs = []
    /\ ws (snd (subscribe_loop E i n toks w)) = ws w
    /\ tasks (snd (subscribe_loop E i n toks w)) = tasks w.
Proof.
  induction toks as [|tok rest IH]; intros i n w.
  - exists []. cbn. now rewrite app_nil_r.
  - destruct (conn (ws w)) as [c|] eqn:Hc.
    + rewrite (subscribe_loop_cons i n tok rest w c Hc). cbn zeta.
      destruct (negb (closed c (history w)) && write_ok E c (writes_on c (history w))).
      * match goal with
        | |- context [subscribe_loop E _ _ _ ?w1] =>
            destruct (IH (S i) n w1) as (evs & Hh & Hin & Hws & Hts)
        end.
        cbn [history ws tasks] in Hh, Hws, Hts.
        eexists. split; [rewrite Hh, <- !app_assoc; reflexivity|].
        rewrite !filter_app, Hin.
        destruct (i <? n - 1)%nat; cbn; auto.
      * eexists. cbn [snd history ws tasks]. split; [reflexivity|]. now cbn.
    + rewrite (subscribe_loop_no_conn i n tok rest w Hc).
      exists []. cbn [snd history ws tasks]. now rewrite app_nil_r.
Qed.

(** [Connect] reads nothing, leaves the shutdown mark as it is and adds
    at most a goroutine at the head of its loop. *)
Lemma Connect_frame w :
  exists evs,
    history (snd (Connect E w)) = (history w ++ evs)%list
    /\ filter is_inbound evs = []
    /\ quit (ws (snd (Connect E w))) = quit (ws w)
    /\ (tasks (snd (Connect E w)) = tasks w
        \/ tasks (snd (Connect E w)) = (tasks w ++ [AtLoop])%list).
Proof.
  rewrite Connect_unfold.
  destruct (dial_ok E (dials w)).
  - unfold subscribeAll, get_tokens, bind. cbn [ws tokens].
    match goal with
    | |- context [subscribe_loop E ?i ?n ?toks ?w1] =>
        destruct (subscribe_loop_frame toks i n w1) as (evs & Hh & Hin & Hws & Hts)
    end.
    cbn [history ws tasks] in Hh, Hws, Hts.
    eexists. split; [rewrite Hh, <- app_assoc; reflexivity|].
    rewrite filter_app, Hin, Hws, Hts. cbn. auto.
  - eexists. cbn [snd history ws tasks]. split; [reflexivity|]. cbn. auto.
Qed.

(** [Close] reads nothing, sets the shutdown mark and touches no
    goroutine. *)
Lemma Close_frame w :
  exists evs,
    history (snd (Close E w)) = (history w ++ evs)%list
    /\ filter is_inbound evs = []
    /\ quit (ws (snd (Close E w))) = true
    /\ tasks (snd (Close E w)) = tasks w.
Proof.
  eexists. split; [apply Close_history|].
  split; [|split; [apply Close_post|]].
  - destruct (conn (ws w)) as [c|]; [|reflexivity].
    destruct (close_ok E c); reflexivity.
  - destruct w as [[p [c|] t h q] hist u d ts]; run_m;
      destruct q; cbn; try destruct (close_ok E c); reflexivity.
Qed.

Lemma forallb_replace_nth (f : pc -> bool) (p : pc) (l : list pc) : forall i,
  forallb f l = true -> f p = true -> forallb f (replace_nth i p l) = true.
Proof.
  induction l as [|x l IH]; intros i Hl Hp; [now destruct i|].
  cbn in Hl. apply andb_prop in Hl as [Hx Hl].
  destruct i; cbn; rewrite ?Hx, ?Hp, ?Hl; auto.
  now rewrite IH.
Qed.

Lemma forallb_nth_error (f : pc -> bool) (l : list pc) : forall i p,
  forallb f l = true -> nth_error l i = Some p -> f p = true.
Proof.
  induction l as [|x l IH]; intros i p Hl Hn; [destruct i; discriminate|].
  cbn in Hl. apply andb_prop in Hl as [Hx Hl].
  destruct i; cbn in Hn; [congruence | eauto].
Qed.

(** With the shutdown mark set, a goroutine that is not inside a read
    never gets into one: at the head of its loop it picks up the
    connection or returns, at the poll of [ws.quit] it returns. *)
Lemma listen_step_after_shutdown (p : pc) w :
  quit (ws w) = true -> in_read p = false ->
  snd (listen_step E p w) = w /\ in_read (fst (listen_step E p w)) = false.
Proof.
  intros Hq Hp. destruct p as [|c|c|]; try discriminate; cbn [listen_step].
  - unfold bind, get_conn, ret. destruct (conn (ws w)); cbn; auto.
  - unfold bind, get_quit, ret. rewrite Hq. cbn. auto.
  - cbn. auto.
Qed.

(** One step of the client once the shutdown mark is set and no
    goroutine is inside a read: nothing is read or dispatched, and both
    facts still hold afterwards. *)
Lemma step_after_shutdown (a : action) w :
  quit (ws w) = true ->
  forallb (fun p => negb (in_read p)) (tasks w) = true ->
  exists evs,
    history (snd (step E a w)) = (history w ++ evs)%list
    /\ filter is_inbound evs = []
    /\ quit (ws (snd (step E a w))) = true
    /\ forallb (fun p => negb (in_read p)) (tasks (snd (step E a w))) = true.
Proof.
  intros Hq Ht. destruct a as [| |i]; cbn [step].
  - destruct (Connect_frame w) as (evs & Hh & Hin & Hqu & Hts).
    unfold bind, ret. destruct (Connect E w) as [r w'] eqn:Hc.
    cbn [snd] in *. exists evs. repeat split; auto; [congruence|].
    destruct Hts as [-> | ->]; auto.
    rewrite forallb_app, Ht. reflexivity.
  - destruct (Close_frame w) as (evs & Hh & Hin & Hqu & Hts).
    unfold bind, ret. destruct (Close E w) as [r w'] eqn:Hc.
    cbn [snd] in *. exists evs. repeat split; auto. congruence.
  - destruct (nth_error (tasks w) i) as [p|] eqn:Hn.
    + assert (Hp : in_read p = false).
      { apply negb_true_iff.
        exact (forallb_nth_error _ _ _ _ Ht Hn). }
      destruct (listen_step_after_shutdown p w Hq Hp) as [Hw Hp'].
      unfold bind, set_task.
      destruct (listen_step E p w) as [p' w'] eqn:Hs. cbn [fst snd] in *.
      subst w'. exists []. cbn [snd history ws tasks].
      rewrite app_nil_r. repeat split; auto.
      apply forallb_replace_nth; auto. now rewrite Hp'.
    + exists []. cbn [snd]. rewrite app_nil_r. auto.
Qed.

Lemma run_cons (a : action) (acts : list action) w :
  snd (run E (a :: acts) w) = snd (run E acts (snd (step E a w))).
Proof. cbn [run]. unfold bind. now destruct (step E a w). Qed.

(** Once the shutdown mark is set and no [listen] goroutine is inside
    a read, no call of [Connect] or [Close] and no schedule of the
    goroutines makes the client read a frame, enter the dispatcher or
    call the callback. *)
Lemma run_after_shutdown (acts : list action) : forall w,
  quit (ws w) = true ->
  forallb (fun p => negb (in_read p)) (tasks w) = true ->
  filter is_inbound (events_since w (snd (run E acts w))) = []
  /\ quit (ws (snd (run E acts w))) = true.
Proof.
  assert (H : forall w,
    quit (ws w) = true ->
    forallb (fun p => negb (in_read p)) (tasks w) = true ->
    exists evs,
      history (snd (run E acts w)) = (history w ++ evs)%list
      /\ filter is_inbound evs = []
      /\ quit (ws (snd (run E acts w))) = true).
  { induction acts as [|a acts IH]; intros w Hq Ht.
    - exists []. cbn. now rewrite app_nil_r.
    - destruct (step_after_shutdown a w Hq Ht) as (e1 & Hh1 & Hi1 & Hq1 & Ht1).
      rewrite run_cons.
      destruct (IH _ Hq1 Ht1) as (e2 & Hh2 & Hi2 & Hq2).
      exists (e1 ++ e2)%list. rewrite Hh2, Hh1, <- app_assoc.
      repeat split; auto. now rewrite filter_app, Hi1, Hi2. }
  intros w Hq Ht. destruct (H w Hq Ht) as (evs & Hh & Hin & Hqu).
  split; auto. now rewrite (events_since_app _ _ _ Hh).
Qed.

(** Handling a message changes nothing but the history. *)
Lemma handleMessage_ws (raw : string) w :
  ws (snd (handleMessage E raw w)) = ws w.
Proof.
  unfold handleMessage.
  destruct (decompress E raw) as [data|]; [|reflexivity].
  destruct (String.eqb data "Ping").
  - destruct w as [[p [c|] t h q] hist u d ts]; reflexivity.
  - destruct (json_Unmarshal E data) as [market|]; [|reflexivity].
    apply dispatch_frame.
Qed.

(** [reconnect] goes through [Close]: it leaves the shutdown mark set. *)
Lemma reconnect_sets_quit w : quit (ws (snd (reconnect E w))) = true.
Proof.
  unfold reconnect, bind, Sleep.
  destruct (log LogReconnecting w) as [u0 w0].
  pose proof (Close_post w0) as [Hq _].
  destruct (Close E w0) as [r1 w1]. cbn [snd] in Hq.
  destruct (emit (EvSleep 2000) w1) as [u2 w2] eqn:Hs.
  assert (Hq2 : quit (ws w2) = true) by (inversion Hs; subst; exact Hq).
  destruct (Connect_frame w2) as (evs & _ & _ & Hq3 & _).
  destruct (Connect E w2) as [[e|] w3]; cbn in *; congruence.
Qed.

Lemma listen_step_keeps_quit (p : pc) w :
  quit (ws w) = true -> quit (ws (snd (listen_step E p w))) = true.
Proof.
  intro Hq. destruct p as [|c|c|]; cbn [listen_step]; unfold bind, ret.
  - unfold get_conn. now destruct (conn (ws w)).
  - unfold get_quit. now rewrite Hq.
  - assert (Hr : ws (snd (ReadMessage E c w)) = ws w).
    { unfold ReadMessage.
      destruct (if closed c (history w) then RError
                else inbound E c (reads_on c (history w))); reflexivity. }
    destruct (ReadMessage E c w) as [[| |msg] w1]; cbn [snd] in *.
    + congruence.
    + destruct (log LogReadError w1) as [u2 w2].
      pose proof (reconnect_sets_quit w2).
      now destruct (reconnect E w2).
    + pose proof (handleMessage_ws msg w1) as Hh.
      destruct (handleMessage E msg w1). cbn [snd] in *. congruence.
  - exact Hq.
Qed.

Lemma step_keeps_quit (a : action) w :
  quit (ws w) = true -> quit (ws (snd (step E a w))) = true.
Proof.
  intro Hq. destruct a as [| |i]; cbn [step]; unfold bind, ret.
  - destruct (Connect_frame w) as (evs & _ & _ & Hq' & _).
    destruct (Connect E w). cbn [snd] in *. congruence.
  - pose proof (Close_post w) as [Hq' _]. now destruct (Close E w).
  - destruct (nth_error (tasks w) i) as [p|]; [|exact Hq].
    pose proof (listen_step_keeps_quit p w Hq) as Hq'.
    now destruct (listen_step E p w).
Qed.

(** X1.  The shutdown mark is permanent: after [Close], whatever is called
    and however the goroutines run, [ws.quit] stays closed. *)
Theorem quit_is_permanent (acts : list action) w :
  quit (ws (snd (run E acts (snd (Close E w))))) = true.
Proof.
  pose proof (Close_post w) as [Hq _].
  revert Hq. generalize (snd (Close E w)). clear w.
  induction acts as [|a acts IH]; intros w Hq; [exact Hq|].
  rewrite run_cons. apply IH. now apply step_keeps_quit.
Qed.

(** ** Further properties of the lifecycle *)

(** The world after [Close], field by field. *)
Lemma Close_state w :
  snd (Close E w) =
  mkWorld
    (mkWS (path (ws w)) None (tokens (ws w)) (messageHandler (ws w)) true)
    (history w ++
     match conn (ws w) with
     | Some c => EvConnClose c (close_ok E c)
                 :: (if close_ok E c then [EvLog LogClosed] else [])
     | None => []
     end)
    (uuids w) (dials w) (tasks w).
Proof.
  destruct w as [[p [c|] t h q] hist u d ts]; run_m.
  - destruct q; cbn; destruct (close_ok E c); cbn;
      rewrite <- ?app_assoc; reflexivity.
  - destruct q; cbn; now rewrite app_nil_r.
Qed.

(** [Connect] begins with a dial, whatever comes of it. *)
Lemma Connect_dials_first w :
  exists evs,
    history (snd (Connect E w)) =
    (history w ++
     EvDial (path (ws w))
            (if dial_ok E (dials w) then Some (dials w) else None) :: evs)%list.
Proof.
  rewrite Connect_unfold. destruct (dial_ok E (dials w)).
  - unfold subscribeAll, get_tokens, bind. cbn [ws tokens].
    match goal with
    | |- context [subscribe_loop E ?i ?n ?toks ?w1] =>
        destruct (subscribe_loop_frame toks i n w1) as (evs & Hh & _)
    end.
    cbn [history] in Hh. eexists. rewrite Hh, <- app_assoc. reflexivity.
  - exists []. reflexivity.
Qed.

(** What [reconnect] does, in order: a log line, [Close], the backoff,
    a dial and what [Connect] does after it, a log line. *)
Lemma reconnect_history w :
  exists evs,
    history (snd (reconnect E w)) =
    (history w ++ [EvLog LogReconnecting]
       ++ match conn (ws w) with
          | Some c => EvConnClose c (close_ok E c)
                      :: (if close_ok E c then [EvLog LogClosed] else [])
          | None => []
          end
       ++ [EvSleep 2000;
           EvDial (path (ws w))
                  (if dial_ok E (dials w) then Some (dials w) else None)]
       ++ evs)%list
    /\ quit (ws (snd (reconnect E w))) = true
    /\ (tasks (snd (reconnect E w)) = tasks w
        \/ tasks (snd (reconnect E w)) = (tasks w ++ [AtLoop])%list).
Proof.
  unfold reconnect, bind, Sleep, log.
  destruct (emit (EvLog LogReconnecting) w) as [u0 w0] eqn:H0.
  assert (Hw0 : w0 = mkWorld (ws w) (history w ++ [EvLog LogReconnecting])
                       (uuids w) (dials w) (tasks w)) by (inversion H0; reflexivity).
  pose proof (Close_state w0) as Hc.
  destruct (Close E w0) as [r1 w1]. cbn [snd] in Hc.
  destruct (emit (EvSleep 2000) w1) as [u2 w2] eqn:H2.
  assert (Hw2 : w2 = mkWorld (ws w1) (history w1 ++ [EvSleep 2000])
                       (uuids w1) (dials w1) (tasks w1)) by (inversion H2; reflexivity).
  destruct (Connect_dials_first w2) as (evs & Hd).
  destruct (Connect_frame w2) as (_ & _ & _ & Hq & Ht).
  assert (Hfin : forall l w3,
            history (snd (emit (EvLog l) w3)) = (history w3 ++ [EvLog l])%list
            /\ ws (snd (emit (EvLog l) w3)) = ws w3
            /\ tasks (snd (emit (EvLog l) w3)) = tasks w3)
    by (intros; repeat split).
  destruct (Connect E w2) as [[e|] w3]; cbn [snd] in Hd, Hq, Ht;
    match goal with
    | |- context [emit (EvLog ?l) w3] =>
        destruct (Hfin l w3) as (Hh & Hws & Hts)
    end;
    rewrite Hh, Hws, Hts, Hd, Hq;
    subst w2 w1 w0; cbn [ws history dials tasks path quit] in *;
    (eexists; split;
     [rewrite <- !app_assoc; cbn [app]; reflexivity | split; [reflexivity | exact Ht]]).
Qed.

Lemma step_CallClose w : snd (step E CallClose w) = snd (Close E w).
Proof. cbn [step]. unfold bind, ret. now destruct (Close E w). Qed.

Lemma closed_after_close c (h : list (event float64)) (ok : bool)
  (rest : list (event float64)) :
  closed c (h ++ EvConnClose c ok :: rest) = true.
Proof.
  rewrite closed_app. unfold closed at 2. cbn [existsb is_close_of].
  rewrite Nat.eqb_refl. apply orb_true_r.
Qed.


(** The step of a [listen] goroutine whose read fails: the error is
    logged, the goroutine reconnects and returns. *)
Lemma step_read_error w c (i : nat) :
  nth_error (tasks w) i = Some (InRead c) ->
  (if closed c (history w) then RError
   else inbound E c (reads_on c (history w))) = RError ->
  snd (step E (Listen i) w) =
  let w1 := snd (reconnect E
                   (mkWorld (ws w)
                      (history w ++ [EvRead c None; EvLog LogReadError])
                      (uuids w) (dials w) (tasks w))) in
  mkWorld (ws w1) (history w1) (uuids w1) (dials w1)
          (replace_nth i Exited (tasks w1)).
Proof.
  intros Hn Hr. cbn [step]. rewrite Hn.
  unfold bind. cbn [listen_step]. unfold bind, ReadMessage. rewrite Hr.
  unfold log, emit. cbn [fst snd ws history uuids dials tasks].
  rewrite <- app_assoc. cbn [app].
  destruct (reconnect E _) as [u w1]. reflexivity.
Qed.

(** X2.  A [Close] that comes while a [listen] goroutine is inside
    [ReadMessage] on the current connection makes that read fail, and
    the goroutine then reconnects: after the log lines and the backoff
    it dials again, with the shutdown mark set. *)
Theorem Close_during_a_read_is_followed_by_a_dial w c (i : nat) :
  nth_error (tasks w) i = Some (InRead c) ->
  conn (ws w) = Some c ->
  let w2 := snd (step E CallClose w) in
  let w3 := snd (step E (Listen i) w2) in
  quit (ws w2) = true /\ conn (ws w2) = None
  /\ exists evs,
       events_since w2 w3 =
       ([EvRead c None; EvLog LogReadError; EvLog LogReconnecting;
         EvSleep 2000;
         EvDial (path (ws w))
                (if dial_ok E (dials w) then Some (dials w) else None)]
        ++ evs)%list.
Proof.
  intros Hn Hc w2 w3.
  assert (Hw2 : w2 = snd (Close E w)) by apply step_CallClose.
  pose proof (Close_state w) as Hst. rewrite Hc in Hst. rewrite <- Hw2 in Hst.
  clearbody w2. subst w3.
  split; [rewrite Hst; reflexivity|]. split; [rewrite Hst; reflexivity|].
  assert (Hcl : closed c (history w2) = true)
    by (rewrite Hst; apply closed_after_close).
  assert (Hts : tasks w2 = tasks w) by (rewrite Hst; reflexivity).
  rewrite step_read_error with (c := c);
    [|now rewrite Hts | now rewrite Hcl].
  cbn zeta.
  match goal with
  | |- context [reconnect E ?w4] =>
      destruct (reconnect_history w4) as (evs & Hh & _)
  end.
  cbn [history ws conn path dials] in Hh.
  exists evs. apply events_since_app. cbn [history]. rewrite Hh, Hst.
  cbn [history ws conn path dials]. rewrite <- !app_assoc. reflexivity.
Qed.

(** X3.  A read error on the only [listen] goroutine ends all reading: the
    goroutine reconnects and returns, the goroutine it started returns
    at its poll of [ws.quit], and from then on no frame is read or
    dispatched, whatever is called and whatever the schedule. *)
Theorem nothing_is_read_after_a_read_error w c (acts : list action) :
  tasks w = [InRead c] ->
  (if closed c (history w) then RError
   else inbound E c (reads_on c (history w))) = RError ->
  let w' := snd (step E (Listen 0) w) in
  quit (ws w') = true
  /\ filter is_inbound (events_since w' (snd (run E acts w'))) = [].
Proof.
  intros Ht Hr w'.
  assert (Hinv : quit (ws w') = true
                 /\ forallb (fun p => negb (in_read p)) (tasks w') = true).
  { subst w'. rewrite step_read_error with (c := c);
      [|now rewrite Ht | exact Hr].
    cbn zeta.
    match goal with
    | |- context [reconnect E ?w4] =>
        destruct (reconnect_history w4) as (evs & _ & Hq & Hts)
    end.
    cbn [ws tasks] in *. split; [exact Hq|].
    destruct Hts as [-> | ->]; rewrite Ht; reflexivity. }
  destruct Hinv as [Hq Hts]. split; [exact Hq|].
  now apply run_after_shutdown.
Qed.

(** X4.  A dial that fails: [Connect] returns the error, and has stored no
    connection, started no goroutine and written nothing. *)
Theorem Connect_reports_a_failed_dial w :
  dial_ok E (dials w) = false ->
  fst (Connect E w) = Some ErrDial
  /\ events_since w (snd (Connect E w)) = [EvDial (path (ws w)) None]
  /\ ws (snd (Connect E w)) = ws w
  /\ tasks (snd (Connect E w)) = tasks w.
Proof.
  intro H. rewrite Connect_unfold, H. cbn [fst snd ws tasks].
  repeat split. now apply events_since_app.
Qed.

(** X5.  Without a connection the subscribe phase of a client with channels
    fails at once with "WebSocket not connected" and writes nothing. *)
Theorem subscribeAll_needs_a_connection w :
  conn (ws w) = None -> tokens (ws w) <> [] ->
  fst (subscribeAll E w) = Some ErrNotConnected
  /\ events_since w (snd (subscribeAll E w)) = [].
Proof.
  intros Hc Ht. unfold subscribeAll, get_tokens, bind.
  destruct (tokens (ws w)) as [|tok rest]; [congruence|].
  rewrite (subscribe_loop_no_conn _ _ tok rest w Hc). cbn [fst snd].
  split; [reflexivity|]. apply events_since_app. cbn. now rewrite app_nil_r.
Qed.

(** X6.  A write that the transport refuses ends the subscribe phase: the
    error names the channel, and no later channel is tried. *)
Theorem subscribeAll_stops_at_a_refused_write w c (tok : string)
  (rest : list string) :
  conn (ws w) = Some c -> tokens (ws w) = tok :: rest ->
  negb (closed c (history w)) && write_ok E c (writes_on c (history w)) = false ->
  fst (subscribeAll E w) = Some (ErrSubscribe tok)
  /\ events_since w (snd (subscribeAll E w)) =
     [EvWrite c (json_encode E (mkChannel (uuid_New E (uuids w)) "sub" tok)) false].
Proof.
  intros Hc Ht Hw. unfold subscribeAll, get_tokens, bind. rewrite Ht.
  rewrite (subscribe_loop_cons _ _ tok rest w c Hc). cbn zeta. rewrite Hw.
  cbn [fst snd]. split; [reflexivity|]. now apply events_since_app.
Qed.

(** X8.  Handling a frame, whatever it holds, leaves the client's fields
    as they are: the connection stays, the shutdown mark stays. *)
Theorem handleMessage_keeps_the_connection (raw : string) w :
  ws (snd (handleMessage E raw w)) = ws w.
Proof. apply handleMessage_ws. Qed.

Lemma subscribe_loop_delays c (toks : list string) : forall i n w,
  i + List.length toks = n ->
  conn (ws w) = Some c ->
  fst (subscribe_loop E i n toks w) = None ->
  exists evs,
    history (snd (subscribe_loop E i n toks w)) = (history w ++ evs)%list
    /\ filter (fun e => is_write e || is_sleep e) evs =
       intersperse (EvSleep 100)
         (map (fun r => EvWrite c (json_encode E r) true)
              (requests_for E (uuids w) toks)).
Proof.
  induction toks as [|tok rest IH]; intros i n w Hn Hc Hres.
  - exists []. cbn. now rewrite app_nil_r.
  - rewrite (subscribe_loop_cons i n tok rest w c Hc) in Hres |- *.
    cbn zeta in Hres |- *.
    destruct (negb (closed c (history w)) && write_ok E c (writes_on c (history w)));
      [|discriminate].
    cbn [List.length] in Hn.
    match type of Hres with
    | fst (subscribe_loop E _ _ _ ?w1) = _ =>
        destruct (IH (S i) n w1 ltac:(lia) Hc Hres) as (evs & Hh & Hf)
    end.
    cbn [history uuids] in Hh, Hf.
    eexists. split; [rewrite Hh, <- !app_assoc; reflexivity|].
    rewrite requests_for_cons, !filter_app, Hf.
    destruct rest as [|tok2 rest'].
    + replace (i <? n - 1)%nat with false
        by (symmetry; apply Nat.ltb_ge; cbn [List.length] in Hn; lia).
      reflexivity.
    + replace (i <? n - 1)%nat with true
        by (symmetry; apply Nat.ltb_lt; cbn [List.length] in Hn; lia).
      rewrite requests_for_cons. reflexivity.
Qed.

(** X7.  The sends of a subscribe phase that returns nil are paced: between
    every two consecutive writes the client sleeps 100 ms, and it does
    not sleep before the first or after the last one. *)
Theorem subscribeAll_sleeps_between_sends w c :
  conn (ws w) = Some c ->
  fst (subscribeAll E w) = None ->
  filter (fun e => is_write e || is_sleep e)
         (events_since w (snd (subscribeAll E w))) =
  intersperse (EvSleep 100)
    (map (fun r => EvWrite c (json_encode E r) true)
         (requests_for E (uuids w) (tokens (ws w)))).
Proof.
  intros Hc Hres. unfold subscribeAll, get_tokens, bind in *.
  destruct (subscribe_loop_delays c (tokens (ws w)) 0
              (List.length (tokens (ws w))) w eq_refl Hc Hres) as (evs & Hh & Hf).
  now rewrite (events_since_app _ _ _ Hh).
Qed.

(** ** What the client sends, delivers and closes *)

Lemma closed_ids_app (h1 h2 : list (event float64)) :
  closed_ids (h1 ++ h2) = (closed_ids h1 ++ closed_ids h2)%list.
Proof. unfold closed_ids. apply flat_map_app. Qed.

Lemma closed_iff_in c (h : list (event float64)) :
  closed c h = true <-> In c (closed_ids h).
Proof.
  unfold closed, closed_ids.
  induction h as [|e h IH]; cbn [existsb flat_map];
    [split; [discriminate | intros []]|].
  rewrite orb_true_iff, in_app_iff, IH.
  destruct e; cbn; try (intuition congruence).
  rewrite Nat.eqb_eq. intuition congruence.
Qed.

Lemma parseSymbol_nonempty (s : string) : s <> "" -> parseSymbol s <> "".
Proof.
  intro H. unfold parseSymbol, slice_to.
  destruct (IndexRune s "@" >? 0)%Z eqn:Hi; [|exact H].
  apply Z.gtb_lt in Hi.
  destruct s as [|c rest]; [congruence|].
  destruct (Z.to_nat (IndexRune (String c rest) "@")) eqn:Hn; [lia|].
  cbn. discriminate.
Qed.

Ltac quiet_parts :=
  split; [|split; [|split; [|eexists; split; [|split]]]].

Lemma quiet_refl w : quiet E w w.
Proof.
  split; [|split; [|split; [|exists []; split; [|split]]]];
    try reflexivity; [now rewrite app_nil_r | constructor].
Qed.

Lemma quiet_trans w1 w2 w3 : quiet E w1 w2 -> quiet E w2 w3 -> quiet E w1 w3.
Proof.
  intros (Hws & Hd & Ht & e1 & Hh1 & Hc1 & Hs1) (Hws' & Hd' & Ht' & e2 & Hh2 & Hc2 & Hs2).
  split; [|split; [|split; [|exists (e1 ++ e2)%list; split; [|split]]]];
    try congruence.
  - now rewrite Hh2, Hh1, <- app_assoc.
  - now rewrite closed_ids_app, Hc1, Hc2.
  - apply Forall_app. split; [exact Hs1|]. now rewrite Hws in Hs2.
Qed.

(** Recording one sound event that is no close. *)
Lemma quiet_emit (e : event float64) w :
  sound_event E (tokens (ws w)) (messageHandler (ws w)) e ->
  closed_ids [e] = [] ->
  quiet E w (snd (emit e w)).
Proof.
  intros Hs Hc.
  split; [|split; [|split; [|exists [e]; split; [|split]]]];
    try reflexivity; [exact Hc | now constructor].
Qed.

Lemma dispatch_quiet w m : quiet E w (snd (dispatch E m w)).
Proof.
  destruct (dispatch_frame w m) as (Hws & Hts & _ & Hd).
  quiet_parts; [exact Hws | exact Hd | exact Hts | apply dispatch_history | |].
  - destruct (is_empty (md_DataType m) || is_empty (md_Price m));
      [reflexivity|].
    destruct (parsePrice E (md_Price m)); [|reflexivity].
    now destruct (messageHandler (ws w)).
  - constructor; [exact I|].
    destruct (is_empty (md_DataType m)) eqn:He1; cbn [orb]; [constructor|].
    destruct (is_empty (md_Price m)); cbn [orb]; [constructor|].
    apply is_empty_false in He1.
    destruct (parsePrice E (md_Price m)) as [v|];
      [|constructor; [exact I | constructor]].
    destruct (messageHandler (ws w)) eqn:Hh; [|constructor].
    constructor; [|constructor].
    cbn. split; [reflexivity|]. split; [reflexivity|].
    now apply parseSymbol_nonempty.
Qed.

Lemma sendPong_quiet w : quiet E w (snd (sendPong E w)).
Proof.
  pose proof (sendPong_history w) as Hh.
  destruct w as [wsv hist u d ts]. destruct wsv as [p oc t h q].
  destruct oc as [c|]; cbn [ws conn] in Hh.
  - quiet_parts; [reflexivity | reflexivity | reflexivity | exact Hh | |].
    + reflexivity.
    + constructor; [|constructor]. now left.
  - apply quiet_refl.
Qed.

Lemma handleMessage_quiet (raw : string) w :
  quiet E w (snd (handleMessage E raw w)).
Proof.
  unfold handleMessage.
  destruct (decompress E raw) as [data|];
    [|apply quiet_emit; [exact I | reflexivity]].
  destruct (String.eqb data "Ping"); [apply sendPong_quiet|].
  destruct (json_Unmarshal E data) as [market|];
    [apply dispatch_quiet | apply quiet_emit; [exact I | reflexivity]].
Qed.

Lemma ReadMessage_quiet c w : quiet E w (snd (ReadMessage E c w)).
Proof.
  unfold ReadMessage.
  destruct (if closed c (history w) then RError
            else inbound E c (reads_on c (history w)));
    [apply quiet_refl | |]; apply quiet_emit; try exact I; reflexivity.
Qed.

(** The subscribe phase, however it ends, writes subscribe requests for
    configured channels only. *)
Lemma subscribe_loop_quiet (toks : list string) : forall i n w,
  incl toks (tokens (ws w)) ->
  quiet E w (snd (subscribe_loop E i n toks w)).
Proof.
  induction toks as [|tok rest IH]; intros i n w Hin; [apply quiet_refl|].
  assert (Htok : In tok (tokens (ws w))) by (apply Hin; now left).
  assert (Hrest : incl rest (tokens (ws w)))
    by (intros x Hx; apply Hin; now right).
  destruct (conn (ws w)) as [c|] eqn:Hc.
  - rewrite (subscribe_loop_cons i n tok rest w c Hc). cbn zeta.
    destruct (negb (closed c (history w)) && write_ok E c (writes_on c (history w))).
    + eapply quiet_trans; [|apply IH; exact Hrest].
      quiet_parts; [reflexivity | reflexivity | reflexivity | reflexivity | |].
      * destruct (i <? n - 1)%nat; reflexivity.
      * apply Forall_app. split.
        -- constructor; [|repeat constructor]. right.
           exists (uuid_New E (uuids w)), tok. split; [exact Htok | reflexivity].
        -- destruct (i <? n - 1)%nat; repeat constructor.
    + cbn [snd].
      quiet_parts; [reflexivity | reflexivity | reflexivity | reflexivity | |].
      * reflexivity.
      * constructor; [|constructor]. right.
           exists (uuid_New E (uuids w)), tok. split; [exact Htok | reflexivity].
  - rewrite (subscribe_loop_no_conn i n tok rest w Hc). cbn [snd].
    split; [|split; [|split; [|exists []; split; [|split]]]];
      try reflexivity; [cbn [history]; now rewrite app_nil_r | constructor].
Qed.

Lemma lawful_refl w : lawful E w w.
Proof.
  split; [|split; [|split; [|split]]]; try reflexivity; [|tauto].
  exists []. split; [now rewrite app_nil_r | constructor].
Qed.

Lemma lawful_trans w1 w2 w3 :
  lawful E w1 w2 -> lawful E w2 w3 -> lawful E w1 w3.
Proof.
  intros (Hp & Ht & Hm & (e1 & Hh1 & Hs1) & Hk)
         (Hp' & Ht' & Hm' & (e2 & Hh2 & Hs2) & Hk').
  split; [|split; [|split; [|split]]]; try congruence; [|tauto].
  exists (e1 ++ e2)%list. split; [now rewrite Hh2, Hh1, <- app_assoc|].
  apply Forall_app. split; [exact Hs1|]. now rewrite Ht, Hm in Hs2.
Qed.

Lemma quiet_lawful w w' : quiet E w w' -> lawful E w w'.
Proof.
  intros (Hws & Hd & Ht & evs & Hh & Hc & Hs).
  split; [|split; [|split; [|split]]]; try (now rewrite Hws).
  - exists evs. now split.
  - unfold handles_ok. rewrite Hws, Hd, Hh, closed_ids_app, Hc, app_nil_r.
    tauto.
Qed.

(** Bookkeeping of the goroutines touches nothing the client owns. *)
Lemma set_task_lawful (i : nat) (p : pc) w :
  lawful E w (snd (set_task i p w)).
Proof.
  split; [|split; [|split; [|split]]]; try reflexivity; [|tauto].
  exists []. cbn. split; [now rewrite app_nil_r | constructor].
Qed.

Lemma NoDup_snoc {A} (l : list A) (a : A) :
  NoDup l -> ~ In a l -> NoDup (l ++ [a]).
Proof.
  intros Hn Ha. apply NoDup_app; [exact Hn | repeat constructor; intros [] |].
  intros x Hx [Hy|[]]. subst. contradiction.
Qed.

(** [Close] closes the current connection, which was not closed before,
    and forgets it. *)
Lemma Close_lawful w : lawful E w (snd (Close E w)).
Proof.
  rewrite Close_state.
  split; [|split; [|split; [|split]]]; try reflexivity.
  - eexists. split; [reflexivity|].
    destruct (conn (ws w)) as [c|]; [|constructor].
    constructor; [exact I|]. destruct (close_ok E c); repeat constructor.
  - intros (Hlt & Hcur & Hnd). unfold handles_ok.
    cbn [ws history dials conn]. rewrite closed_ids_app.
    destruct (conn (ws w)) as [c|] eqn:Hc.
    + destruct (Hcur c eq_refl) as [Hc1 Hc2].
      assert (Hone : closed_ids
                (EvConnClose (float64 := float64) c (close_ok E c)
                 :: (if close_ok E c then [EvLog LogClosed] else [])) = [c])
        by (now destruct (close_ok E c)).
      rewrite Hone.
      split; [|split; [discriminate|now apply NoDup_snoc]].
      intros x Hx. apply in_app_or in Hx. destruct Hx as [Hx|[Hx|[]]];
        [now apply Hlt | now subst].
    + cbn [closed_ids flat_map]. rewrite app_nil_r.
      split; [exact Hlt|]. split; [discriminate | exact Hnd].
Qed.

(** [Connect] closes nothing: it stores the handle of the new dial, which
    no earlier close can have named. *)
Lemma Connect_lawful w : lawful E w (snd (Connect E w)).
Proof.
  rewrite Connect_unfold. destruct (dial_ok E (dials w)).
  - eapply lawful_trans;
      [|apply quiet_lawful; unfold subscribeAll; apply subscribe_loop_quiet].
    + split; [|split; [|split; [|split]]]; try reflexivity.
      * eexists. split; [reflexivity|]. repeat constructor.
      * intros (Hlt & Hcur & Hnd). unfold handles_ok.
        cbn [ws history dials conn]. rewrite closed_ids_app.
        cbn [closed_ids flat_map app]. rewrite app_nil_r.
        split; [intros c Hc; apply Hlt in Hc; lia|].
        split; [|exact Hnd].
        intros c Hc. injection Hc as <-. split; [lia|].
        intro Hin. apply Hlt in Hin. lia.
    + cbn. apply incl_refl.
  - cbn [snd].
    split; [|split; [|split; [|split]]]; try reflexivity.
    + eexists. split; [reflexivity|]. repeat constructor.
    + intros (Hlt & Hcur & Hnd). unfold handles_ok.
      cbn [ws history dials conn]. rewrite closed_ids_app.
      cbn [closed_ids flat_map app]. rewrite app_nil_r.
      split; [intros c Hc; apply Hlt in Hc; lia|].
      split; [|exact Hnd].
      intros c Hc. destruct (Hcur c Hc). split; [lia | assumption].
Qed.

Lemma log_lawful (l : logline) w : lawful E w (snd (log l w)).
Proof. apply quiet_lawful, quiet_emit; [exact I | reflexivity]. Qed.

Lemma Sleep_lawful (ms : Z) w : lawful E w (snd (Sleep ms w)).
Proof. apply quiet_lawful, quiet_emit; [exact I | reflexivity]. Qed.

(** [reconnect], step by step. *)
Lemma reconnect_unfold w :
  snd (reconnect E w) =
  let r := Connect E (snd (Sleep 2000 (snd (Close E (snd (log LogReconnecting w)))))) in
  snd (log match fst r with
           | Some e => LogReconnectFailed e
           | None => LogReconnected
           end (snd r)).
Proof.
  unfold reconnect, bind.
  destruct (log LogReconnecting w) as [[] w1]. cbn [snd].
  destruct (Close E w1) as [r2 w2]. cbn [snd].
  destruct (Sleep 2000 w2) as [[] w3]. cbn [snd].
  destruct (Connect E w3) as [[e|] w4]; reflexivity.
Qed.

Lemma reconnect_lawful w : lawful E w (snd (reconnect E w)).
Proof.
  rewrite reconnect_unfold. cbn zeta.
  eapply lawful_trans; [|apply log_lawful].
  eapply lawful_trans; [|apply Connect_lawful].
  eapply lawful_trans; [|apply Sleep_lawful].
  eapply lawful_trans; [|apply Close_lawful].
  apply log_lawful.
Qed.

Lemma listen_step_lawful (p : pc) w : lawful E w (snd (listen_step E p w)).
Proof.
  destruct p as [|c|c|]; cbn [listen_step]; unfold bind.
  - unfold get_conn. cbn [fst snd]. destruct (conn (ws w)); apply lawful_refl.
  - unfold get_quit. cbn [fst snd]. destruct (quit (ws w)); apply lawful_refl.
  - pose proof (ReadMessage_quiet c w) as Hq. apply quiet_lawful in Hq.
    destruct (ReadMessage E c w) as [[| |msg] w1]; cbn [snd] in Hq |- *.
    + exact Hq.
    + eapply lawful_trans; [exact Hq|].
      pose proof (log_lawful LogReadError w1) as Hl.
      destruct (log LogReadError w1) as [[] w2]. cbn [snd] in Hl.
      eapply lawful_trans; [exact Hl|].
      pose proof (reconnect_lawful w2) as Hr.
      destruct (reconnect E w2) as [[] w3]. exact Hr.
    + eapply lawful_trans; [exact Hq|].
      pose proof (handleMessage_quiet msg w1) as Hm. apply quiet_lawful in Hm.
      destruct (handleMessage E msg w1) as [[] w2]. exact Hm.
  - apply lawful_refl.
Qed.

Lemma step_lawful (a : action) w : lawful E w (snd (step E a w)).
Proof.
  destruct a as [| |i].
  - cbn [step]. unfold bind, ret. pose proof (Connect_lawful w) as H.
    now destruct (Connect E w).
  - rewrite step_CallClose. apply Close_lawful.
  - cbn [step].
    destruct (nth_error (tasks w) i) as [p|]; [|apply lawful_refl].
    unfold bind. pose proof (listen_step_lawful p w) as H.
    destruct (listen_step E p w) as [p' w1]. cbn [snd] in H.
    eapply lawful_trans; [exact H | apply set_task_lawful].
Qed.

(** Every run of the client, whatever the application calls and however
    the goroutines are scheduled, keeps the configuration, records sound
    events only and keeps the handles in order. *)
Lemma run_lawful (acts : list action) : forall w,
  lawful E w (snd (run E acts w)).
Proof.
  induction acts as [|a acts IH]; intro w; [apply lawful_refl|].
  rewrite run_cons. eapply lawful_trans; [apply step_lawful | apply IH].
Qed.

Lemma boot_handles_ok (toks : list string) (handler : bool) :
  handles_ok (boot (float64 := float64) toks handler).
Proof.
  split; [intros c []|]. split; [discriminate | constructor].
Qed.

(** The events of a run are sound for the configuration it started with. *)
Lemma run_events_sound (acts : list action) w :
  Forall (sound_event E (tokens (ws w)) (messageHandler (ws w)))
         (events_since w (snd (run E acts w))).
Proof.
  destruct (run_lawful acts w) as (_ & _ & _ & (evs & Hh & Hs) & _).
  now rewrite (events_since_app _ _ _ Hh).
Qed.

(** X9.  The configuration of a client is fixed at construction: no
    call of [Connect] or [Close] and no step of a [listen] goroutine,
    reconnects included, changes the endpoint, the channel list or the
    callback. *)
Theorem configuration_never_changes (acts : list action) w :
  let w' := snd (run E acts w) in
  path (ws w') = path (ws w)
  /\ tokens (ws w') = tokens (ws w)
  /\ messageHandler (ws w') = messageHandler (ws w).
Proof.
  destruct (run_lawful acts w) as (Hp & Ht & Hm & _). cbn zeta. auto.
Qed.

(** X10.  Whenever the callback is called, in any run, the client has
    a callback, and the update it is given has the type "priceUpdate"
    and a symbol that is not empty. *)
Theorem callback_gets_only_price_updates (acts : list action) w
    (u : PriceUpdate float64) :
  In (EvHandler u) (events_since w (snd (run E acts w))) ->
  messageHandler (ws w) = true
  /\ Type_ u = "priceUpdate"
  /\ Symbol u <> "".
Proof.
  intro Hin. pose proof (run_events_sound acts w) as Hs.
  rewrite Forall_forall in Hs. exact (Hs _ Hin).
Qed.

(** X11.  Whatever the client writes to a connection, in any run, is
    the text "Pong" or the encoding of a subscribe request, type "sub",
    for one of the configured channels. *)
Theorem client_writes_only_pongs_and_subscriptions (acts : list action) w
    c (d : string) (ok : bool) :
  In (EvWrite c d ok) (events_since w (snd (run E acts w))) ->
  d = "Pong"
  \/ exists id tok,
       In tok (tokens (ws w)) /\ d = json_encode E (mkChannel id "sub" tok).
Proof.
  intro Hin. pose proof (run_events_sound acts w) as Hs.
  rewrite Forall_forall in Hs. exact (Hs _ Hin).
Qed.

(** X12.  From construction on, in any run: no connection is closed
    twice, every connection closed was dialed before, and the
    connection the client holds is never one it has closed. *)
Theorem no_connection_is_closed_twice (toks : list string) (handler : bool)
    (acts : list action) :
  let w := snd (run E acts (boot toks handler)) in
  NoDup (closed_ids (history w))
  /\ (forall c, In c (closed_ids (history w)) -> c < dials w)
  /\ (forall c, conn (ws w) = Some c ->
                c < dials w /\ closed c (history w) = false).
Proof.
  cbn zeta.
  destruct (run_lawful acts (boot toks handler)) as (_ & _ & _ & _ & Hk).
  destruct (Hk (boot_handles_ok toks handler)) as (Hlt & Hcur & Hnd).
  split; [exact Hnd|]. split; [exact Hlt|].
  intros c Hc. destruct (Hcur c Hc) as [H1 H2]. split; [exact H1|].
  destruct (closed c _) eqn:Hcl; [|reflexivity].
  apply closed_iff_in in Hcl. contradiction.
Qed.

(** X13.  [Connect] closes nothing.  After a successful dial the client
    holds the new connection, whatever it held before: called on a
    client that has a connection, it drops the old handle unclosed.
    After a failed dial the client holds what it held. *)
Theorem Connect_closes_nothing w :
  let w' := snd (Connect E w) in
  closed_ids (events_since w w') = []
  /\ conn (ws w') = (if dial_ok E (dials w) then Some (dials w)
                     else conn (ws w)).
Proof.
  cbn zeta. rewrite Connect_unfold. destruct (dial_ok E (dials w)).
  - match goal with
    | |- context [subscribeAll E ?w1] =>
        destruct (subscribe_loop_quiet (tokens (ws w1)) 0
                    (List.length (tokens (ws w1))) w1 (incl_refl _))
          as (Hws & _ & _ & evs & Hh & Hc & _)
    end.
    unfold subscribeAll, get_tokens, bind. cbn [fst snd].
    cbn [ws tokens history] in Hws, Hh |- *.
    rewrite Hws. split; [|reflexivity].
    rewrite <- app_assoc in Hh.
    rewrite (events_since_app _ _ _ Hh), closed_ids_app, Hc. reflexivity.
  - cbn [snd ws]. split; [|reflexivity].
    now rewrite (events_since_app w _ [EvDial (path (ws w)) None]).
Qed.

(** ** More on [parseSymbol] and [parsePrice] *)

Lemma split_at_first (s : string) (b : ascii) :
  byte_in b s = false
  \/ exists pre post, s = pre ++ String b post /\ byte_in b pre = false.
Proof.
  induction s as [|c s IH]; [now left|].
  cbn [byte_in]. destruct (byte_eqb b c) eqn:Hbc.
  - right. apply byte_eqb_eq in Hbc. subst c. now exists "", s.
  - destruct IH as [IH | (pre & post & -> & Hpre)]; [now left|].
    right. exists (String c pre), post. split; [reflexivity|].
    cbn [byte_in]. now rewrite Hbc.
Qed.

Lemma prefix_app (pre rest : string) : prefix pre (pre ++ rest) = true.
Proof.
  induction pre as [|c pre IH]; [now destruct rest|].
  cbn. destruct (ascii_dec c c); [exact IH | congruence].
Qed.

Lemma prefix_refl (s : string) : prefix s s = true.
Proof.
  induction s as [|c s IH]; [reflexivity|].
  cbn. destruct (ascii_dec c c); [exact IH | congruence].
Qed.

(** X14.  The symbol of a channel is a prefix of the channel, taking
    the symbol of a symbol changes nothing, and the symbol of a channel
    that is not empty is not empty. *)
Theorem parseSymbol_is_an_idempotent_prefix (s : string) :
  prefix (parseSymbol s) s = true
  /\ parseSymbol (parseSymbol s) = parseSymbol s
  /\ (s <> "" -> parseSymbol s <> "").
Proof.
  split; [|split; [|apply parseSymbol_nonempty]].
  - destruct (split_at_first s "@") as [H | (pre & post & -> & Hpre)].
    + unfold parseSymbol, IndexRune. rewrite (IndexByte_absent s "@" H).
      apply prefix_refl.
    + unfold parseSymbol, IndexRune. rewrite (IndexByte_first pre post "@" Hpre).
      destruct (Z.of_nat (String.length pre) >? 0)%Z; [|apply prefix_refl].
      unfold slice_to. rewrite Nat2Z.id, substring_prefix. apply prefix_app.
  - destruct (split_at_first s "@") as [H | (pre & post & -> & Hpre)].
    + unfold parseSymbol at 2 3, IndexRune.
      rewrite (IndexByte_absent s "@" H). cbn.
      unfold parseSymbol, IndexRune. now rewrite (IndexByte_absent s "@" H).
    + unfold parseSymbol at 2 3, IndexRune.
      rewrite (IndexByte_first pre post "@" Hpre).
      destruct (Z.of_nat (String.length pre) >? 0)%Z eqn:Hpos.
      * unfold slice_to. rewrite Nat2Z.id, substring_prefix.
        unfold parseSymbol, IndexRune. now rewrite (IndexByte_absent pre "@" Hpre).
      * destruct pre as [|c pre]; [reflexivity|].
        rewrite Z.gtb_ltb in Hpos. apply Z.ltb_ge in Hpos.
        cbn [String.length] in Hpos. lia.
Qed.

(** A byte that cannot begin a float token is no blank for [SkipSpace]
    and leaves the token empty. *)
Lemma scan_of_no_number (c : ascii) (rest : string) :
  starts_no_number c = true ->
  SkipSpace (String c rest) = Some (String c rest)
  /\ fst (floatToken (String c rest)) = "".
Proof.
  intro H.
  destruct c as [[] [] [] [] [] [] [] []];
    vm_compute in H; try discriminate H; split; vm_compute; reflexivity.
Qed.

(** X15.  A price text that begins with a byte that cannot begin a
    number (no blank, sign, digit, point or underscore and none of the
    letters n N i I e E p P) gives [strconv.ParseFloat] the empty
    token to judge, whatever follows. *)
Theorem parsePrice_of_text_without_a_number (c : ascii) (rest : string) :
  starts_no_number c = true ->
  parsePrice E (String c rest) = ParseFloat E "".
Proof.
  intro H. destruct (scan_of_no_number c rest H) as [Hs Ht].
  unfold parsePrice, Sscanf_f. rewrite Hs, Hs, Ht. reflexivity.
Qed.

(** ** Reconnecting *)

Lemma closed_ids_close_events c (ok : bool) :
  closed_ids (EvConnClose (float64 := float64) c ok
              :: (if ok then [EvLog LogClosed] else [])) = [c].
Proof. now destruct ok. Qed.

(** X16.  When the dial of a [reconnect] succeeds and the new
    connection accepts every write, [reconnect] subscribes again: it
    writes to the new connection one request per configured channel,
    in the order of the list, writes nothing else, and logs the
    success.  The client then holds the new connection, with the
    shutdown mark set. *)
Theorem reconnect_subscribes_again w :
  handles_ok w ->
  dial_ok E (dials w) = true ->
  (forall k, write_ok E (dials w) k = true) ->
  let w' := snd (reconnect E w) in
  let evs := events_since w w' in
  conn (ws w') = Some (dials w)
  /\ quit (ws w') = true
  /\ filter is_write evs =
     map (fun r => EvWrite (dials w) (json_encode E r) true)
         (requests_for E (uuids w) (tokens (ws w)))
  /\ exists pre, evs = (pre ++ [EvLog LogReconnected])%list.
Proof.
  intros (Hlt & Hcur & Hnd) Hd Hw. cbn zeta.
  rewrite reconnect_unfold. cbn zeta.
  unfold log, Sleep, emit. cbn [snd].
  rewrite Close_state. cbn [snd ws history uuids dials tasks path tokens messageHandler].
  rewrite Connect_unfold. cbn [snd ws history uuids dials tasks path tokens messageHandler quit].
  rewrite Hd.
  match goal with
  | |- context [subscribeAll E ?x] => set (w4 := x)
  end.
  assert (Hc4 : conn (ws w4) = Some (dials w)) by reflexivity.
  assert (Hcl4 : closed (dials w) (history w4) = false).
  { destruct (closed (dials w) (history w4)) eqn:Hcl; [|reflexivity].
    apply closed_iff_in in Hcl. subst w4. cbn [history] in Hcl.
    rewrite !closed_ids_app in Hcl. cbn [closed_ids flat_map app] in Hcl.
    rewrite !app_nil_r in Hcl. apply in_app_or in Hcl.
    destruct Hcl as [Hcl|Hcl]; [apply Hlt in Hcl; lia|].
    destruct (conn (ws w)) as [c|] eqn:Hc; [|destruct Hcl].
    fold (closed_ids (EvConnClose (float64 := float64) c (close_ok E c)
                      :: (if close_ok E c then [EvLog LogClosed] else []))) in Hcl.
    rewrite closed_ids_close_events in Hcl. destruct Hcl as [Hcl|[]].
    destruct (Hcur c eq_refl). lia. }
  assert (Hnil : fst (subscribeAll E w4) = None).
  { unfold subscribeAll, get_tokens, bind. cbn [fst snd].
    now apply subscribe_loop_returns_nil with (dials w). }
  pose proof Hnil as Hnil'.
  unfold subscribeAll, get_tokens, bind in Hnil'. cbn [fst snd] in Hnil'.
  destruct (subscribe_loop_success (dials w) (tokens (ws w4)) 0
              (List.length (tokens (ws w4))) w4 Hc4 Hnil')
    as (evs' & Hh & Hwr & _ & _ & _ & Hws & _).
  rewrite Hnil. cbn [snd ws history].
  unfold subscribeAll, get_tokens, bind. cbn [fst snd].
  rewrite Hws. subst w4. cbn [ws conn quit history uuids tokens] in *.
  split; [reflexivity|]. split; [reflexivity|].
  rewrite Hh, <- !app_assoc.
  match goal with
  | |- context [events_since w ?w1] =>
      rewrite (events_since_app w w1 _ eq_refl)
  end.
  split.
  - rewrite !filter_app, Hwr.
    destruct (conn (ws w)) as [c|]; [destruct (close_ok E c)|];
      cbn; now rewrite app_nil_r.
  - eexists. rewrite !app_assoc. reflexivity.
Qed.

Lemma replace_nth_same {A} (l : list A) : forall (i : nat) (a : A),
  nth_error l i = Some a -> replace_nth i a l = l.
Proof.
  induction l as [|x l IH]; intros [|i] a H; try discriminate.
  - cbn in H. now injection H as ->.
  - cbn in H |- *. now rewrite (IH i a H).
Qed.

(** A goroutine that has returned does nothing more. *)
Lemma step_of_returned_goroutines (i : nat) w :
  Forall (fun p => p = Exited) (tasks w) ->
  snd (step E (Listen i) w) = w.
Proof.
  intro Hall. cbn [step].
  destruct (nth_error (tasks w) i) as [p|] eqn:Hn; [|reflexivity].
  assert (Hp : p = Exited).
  { rewrite Forall_forall in Hall. apply Hall. eapply nth_error_In, Hn. }
  subst p. cbn [listen_step]. unfold bind, ret, set_task. cbn [fst snd].
  rewrite (replace_nth_same _ _ _ Hn). now destruct w.
Qed.

Lemma run_of_returned_goroutines (idxs : list nat) w :
  Forall (fun p => p = Exited) (tasks w) ->
  snd (run E (map Listen idxs) w) = w.
Proof.
  intro Hall. induction idxs as [|i idxs IH]; [reflexivity|].
  cbn [map]. rewrite run_cons, (step_of_returned_goroutines i w Hall).
  exact IH.
Qed.

(** X17.  A reconnection is tried once.  When the read of the only
    [listen] goroutine fails and the dial of its [reconnect] fails too,
    the goroutine logs the failure and returns: the client is left
    without a connection and without a goroutine, and however the
    scheduler goes on, nothing more happens -- no second dial. *)
Theorem failed_reconnect_is_not_retried w c (idxs : list nat) :
  tasks w = [InRead c] ->
  (if closed c (history w) then RError
   else inbound E c (reads_on c (history w))) = RError ->
  dial_ok E (dials w) = false ->
  let w' := snd (step E (Listen 0) w) in
  events_since w w' =
    ([EvRead c None; EvLog LogReadError; EvLog LogReconnecting]
     ++ match conn (ws w) with
        | Some c' => EvConnClose c' (close_ok E c')
                     :: (if close_ok E c' then [EvLog LogClosed] else [])
        | None => []
        end
     ++ [EvSleep 2000; EvDial (path (ws w)) None;
         EvLog (LogReconnectFailed ErrDial)])%list
  /\ conn (ws w') = None
  /\ tasks w' = [Exited]
  /\ snd (run E (map Listen idxs) w') = w'.
Proof.
  intros Ht Hr Hd. cbn zeta.
  rewrite (step_read_error w c 0); [|now rewrite Ht | exact Hr].
  cbn zeta. rewrite reconnect_unfold. cbn zeta.
  unfold log, Sleep, emit. cbn [snd].
  rewrite Close_state.
  cbn [snd ws history uuids dials tasks path tokens messageHandler].
  rewrite Connect_unfold.
  cbn [snd ws history uuids dials tasks path tokens messageHandler quit].
  rewrite Hd. cbn [fst snd ws history uuids dials tasks conn].
  rewrite Ht. cbn [replace_nth].
  split; [|split; [reflexivity|split; [reflexivity|]]].
  - apply events_since_app. cbn [history].
    rewrite <- !app_assoc. reflexivity.
  - apply run_of_returned_goroutines. cbn [tasks]. now constructor.
Qed.

(** X18.  When closing the transport fails, [Close] returns the error
    and logs nothing; the handle is forgotten and the shutdown mark is
    set all the same. *)
Theorem Close_reports_a_failed_close w c :
  conn (ws w) = Some c ->
  close_ok E c = false ->
  fst (Close E w) = Some ErrClose
  /\ events_since w (snd (Close E w)) = [EvConnClose c false]
  /\ conn (ws (snd (Close E w))) = None
  /\ quit (ws (snd (Close E w))) = true.
Proof.
  intros Hc Hok.
  assert (Hr : fst (Close E w) = Some ErrClose).
  { destruct w as [[p oc t h q] hist u d ts]. cbn [ws conn] in Hc. subst oc.
    unfold Close, bind, get_quit, get_conn, close_quit, connClose, set_conn,
      set_ws, emit, ret.
    destruct q; cbn [fst snd ws conn quit]; now rewrite Hok. }
  split; [exact Hr|]. rewrite Close_state. cbn [ws conn quit history].
  split; [|split; reflexivity].
  apply events_since_app. cbn [history]. now rewrite Hc, Hok.
Qed.

(** X19.  Blanks before a price are skipped, a newline is not: a price
    text with a leading space or tab parses as the text without it, a
    price text that begins with a newline does not parse, and neither
    does the empty text. *)
Theorem parsePrice_skips_blanks_but_no_newline (s : string) :
  parsePrice E (String " " s) = parsePrice E s
  /\ parsePrice E (String "009" s) = parsePrice E s
  /\ parsePrice E (String lf s) = None
  /\ parsePrice E "" = None.
Proof.
  assert (H0 : slice_from s 0 = s) by (now destruct s).
  assert (Hsp : SkipSpace (String " " s) = SkipSpace s).
  { unfold SkipSpace. cbn [String.length SkipSpace_loop].
    assert (H : DecodeRune (String " " s) = (32%Z, 1)) by reflexivity.
    assert (H2 : isSpace 32 = true) by (vm_compute; reflexivity).
    rewrite H, H2. cbn. now rewrite H0. }
  assert (Htab : SkipSpace (String "009" s) = SkipSpace s).
  { unfold SkipSpace. cbn [String.length SkipSpace_loop].
    assert (H : DecodeRune (String "009" s) = (9%Z, 1)) by reflexivity.
    assert (H2 : isSpace 9 = true) by (vm_compute; reflexivity).
    rewrite H, H2. cbn. now rewrite H0. }
  assert (Hlf : SkipSpace (String lf s) = None).
  { unfold SkipSpace. cbn [String.length SkipSpace_loop].
    assert (H : DecodeRune (String lf s) = (10%Z, 1)) by reflexivity.
    rewrite H. reflexivity. }
  unfold parsePrice, Sscanf_f. rewrite Hsp, Htab, Hlf.
  repeat split; reflexivity.
Qed.

(** ** The inbound path, end to end *)



End Properties.

(** * Runs on the reference library *)

(** ** Frames *)

Example gunzip_of_stored_frame :
  gunzip_ref (gzip_store btc_payload) = Some btc_payload.
Proof. vm_compute. reflexivity. Qed.

(** A frame as zlib writes it at level 0 for the four bytes "Ping". *)
Example gunzip_of_zlib_frame :
  gunzip_ref (string_of_bytes
    [31; 139; 8; 0; 0; 0; 0; 0; 4; 3; 1; 4; 0; 251; 255;
     80; 105; 110; 103; 195; 146; 231; 133; 4; 0; 0; 0]%Z) = Some "Ping".
Proof. vm_compute. reflexivity. Qed.

Example gunzip_of_plain_text : gunzip_ref "Ping" = None.
Proof. vm_compute. reflexivity. Qed.

Example Unmarshal_of_payload :
  Unmarshal_ref btc_payload = Some (mkMarketData btc_trade "100.50").
Proof. vm_compute. reflexivity. Qed.

Example Unmarshal_of_Pong : Unmarshal_ref "Pong" = None.
Proof. vm_compute. reflexivity. Qed.

Example parsePrice_examples :
  parsePrice quiet_net "100.50" = Some (Finite (Qmake 201 2))
  /\ parsePrice quiet_net "1.5abc" = Some (Finite (Qmake 3 2))
  /\ parsePrice quiet_net "abc" = None
  /\ parsePrice quiet_net "1.5e" = None
  /\ parsePrice quiet_net "1e3x" = Some (Finite (Qmake 1000 1)).
Proof. vm_compute. repeat split. Qed.

(** The frame of the specification's example, handled by a streaming
    client: one update for BTC-USDT at 100.50. *)
Example market_frame_reaches_the_callback :
  events_since streaming
    (snd (handleMessage quiet_net (gzip_store btc_payload) streaming)) =
  [EvDispatch (mkMarketData btc_trade "100.50");
   EvHandler (mkPriceUpdate "priceUpdate" "BTC-USDT" (Finite (Qmake 201 2)))].
Proof. vm_compute. reflexivity. Qed.

(** ** The claims on concrete inputs *)

(** C3 as stated fails: "hello" decompresses, is neither "Ping" nor
    "Pong", and is not forwarded to the dispatcher; "Pong" is not taken
    as a control frame but fails in the JSON decoder like "hello". *)
Lemma non_json_payload_is_not_dispatched :
  decompress quiet_net (gzip_store "hello") = Some "hello"
  /\ "hello" <> "Ping" /\ "hello" <> "Pong"
  /\ events_since streaming
       (snd (handleMessage quiet_net (gzip_store "hello") streaming)) =
     [EvLog LogJSONDecodeFailed]
  /\ events_since streaming
       (snd (handleMessage quiet_net (gzip_store "Pong") streaming)) =
     [EvLog LogJSONDecodeFailed].
Proof. repeat split; try discriminate; vm_compute; reflexivity. Qed.

(** C5 on a frame for BTC-USDT at 100.50. *)
Lemma dispatch_calls_handler_iff_witness :
  messageHandler (ws streaming) = true
  /\ events_since streaming
       (snd (dispatch quiet_net (mkMarketData btc_trade "100.50") streaming)) =
     [EvDispatch (mkMarketData btc_trade "100.50");
      EvHandler (mkPriceUpdate "priceUpdate" (parseSymbol btc_trade)
                   (Finite (Qmake 201 2)))].
Proof.
  split; [reflexivity|].
  refine (proj1 (proj2 (dispatch_calls_handler_iff quiet_net streaming
                          (mkMarketData btc_trade "100.50") eq_refl))
                (Finite (Qmake 201 2)) _ _ _).
  - discriminate.
  - discriminate.
  - vm_compute. reflexivity.
Defined.

(** C6 on a stored "Ping" frame. *)
Lemma ping_is_answered_with_one_pong_witness :
  decompress quiet_net (gzip_store "Ping") = Some "Ping"
  /\ conn (ws streaming) = Some 0
  /\ written (events_since streaming
                (snd (handleMessage quiet_net (gzip_store "Ping") streaming))) =
     ["Pong"].
Proof.
  assert (H1 : decompress quiet_net (gzip_store "Ping") = Some "Ping")
    by (vm_compute; reflexivity).
  assert (H2 : conn (ws streaming) = Some 0) by reflexivity.
  exact (conj H1 (conj H2
    (proj1 (proj2 (ping_is_answered_with_one_pong quiet_net streaming
                     (gzip_store "Ping") 0 H1 H2))))).
Defined.

(** C4 on a second subscribe phase of a client for two channels. *)
Lemma subscribeAll_sends_one_request_per_channel_witness :
  conn (ws streaming2) = Some 0
  /\ closed 0 (history streaming2) = false
  /\ (forall k, write_ok quiet_net 0 k = true)
  /\ NoDup (map (uuid_New quiet_net)
              (seq (uuids streaming2) (List.length (tokens (ws streaming2)))))
  /\ fst (subscribeAll quiet_net streaming2) = None
  /\ written (events_since streaming2 (snd (subscribeAll quiet_net streaming2))) =
     [Marshal_ref (mkChannel (uuid_ref 2) "sub" btc_trade);
      Marshal_ref (mkChannel (uuid_ref 3) "sub" eth_trade)].
Proof.
  assert (H1 : conn (ws streaming2) = Some 0) by reflexivity.
  assert (H2 : closed 0 (history streaming2) = false) by reflexivity.
  assert (H3 : forall k, write_ok quiet_net 0 k = true) by reflexivity.
  assert (H4 : NoDup (map (uuid_New quiet_net)
              (seq (uuids streaming2) (List.length (tokens (ws streaming2)))))).
  { vm_compute. constructor; [intros [H|[]]; discriminate H|].
    constructor; [intros []|]. constructor. }
  pose proof (subscribeAll_sends_one_request_per_channel
                quiet_net streaming2 0 H1 H2 H3 H4) as (R1 & _ & R3 & _).
  exact (conj H1 (conj H2 (conj H3 (conj H4 (conj R1 R3))))).
Defined.

(** C9 as stated fails: in a successful [Connect] the [listen]
    goroutine is started before the subscribe request is written. *)
Lemma listener_is_started_before_subscribing :
  fst (Connect quiet_net (boot [btc_trade] true)) = None
  /\ events_since (boot [btc_trade] true)
       (snd (Connect quiet_net (boot [btc_trade] true))) =
     [EvDial "wss://open-api-swap.bingx.com/swap-market" (Some 0);
      EvLog LogConnected;
      EvGoListen;
      EvWrite 0 (Marshal_ref (mkChannel (uuid_ref 0) "sub" btc_trade)) true;
      EvLog (LogSubscribed btc_trade 1 1)].
Proof. split; vm_compute; reflexivity. Qed.

(** C9, as the code has it, on the same call. *)
Lemma Connect_starts_listener_then_subscribes_witness :
  fst (Connect quiet_net (boot [btc_trade] true)) = None
  /\ exists c sub,
       events_since (boot [btc_trade] true)
         (snd (Connect quiet_net (boot [btc_trade] true))) =
       ([EvDial "wss://open-api-swap.bingx.com/swap-market" (Some c);
         EvLog LogConnected; EvGoListen] ++ sub)%list
       /\ filter is_go_listen sub = [].
Proof.
  assert (H : fst (Connect quiet_net (boot [btc_trade] true)) = None)
    by (vm_compute; reflexivity).
  split; [exact H|].
  destruct (Connect_starts_listener_then_subscribes quiet_net
              (boot [btc_trade] true) H) as (c & sub & He & _ & Hg & _).
  exists c, sub. split; [exact He | exact Hg].
Defined.

(** C10 as stated fails: "1.5e" and "1.5exyz" begin with the decimal
    number 1.5, which parses alone, and go on with bytes that are no
    digits; parsing fails, so the frame is dropped with a log line. *)
Lemma number_with_bare_exponent_does_not_parse :
  parsePrice quiet_net "1.5" = Some (Finite (Qmake 3 2))
  /\ parsePrice quiet_net "1.5e" = None
  /\ parsePrice quiet_net "1.5exyz" = None
  /\ events_since streaming
       (snd (dispatch quiet_net (mkMarketData btc_trade "1.5exyz") streaming)) =
     [EvDispatch (mkMarketData btc_trade "1.5exyz");
      EvLog (LogInvalidPrice "1.5exyz")].
Proof. repeat split; vm_compute; reflexivity. Qed.

(** C10, as the code has it, on "1.5abc": the value is that of "1.5". *)
Lemma parsePrice_reads_number_and_ignores_rest_witness :
  all_digits "1" = true /\ "1" <> "" /\ all_digits "5" = true
  /\ stops_number "abc" = true
  /\ parsePrice quiet_net "1.5abc" = ParseFloat quiet_net "1.5".
Proof.
  assert (H1 : all_digits "1" = true) by reflexivity.
  assert (H2 : "1" <> "") by discriminate.
  assert (H3 : all_digits "5" = true) by reflexivity.
  assert (H4 : stops_number "abc" = true) by reflexivity.
  exact (conj H1 (conj H2 (conj H3 (conj H4
    (proj1 (parsePrice_reads_number_and_ignores_rest quiet_net
              "1" "5" "abc" true H1 H2 H3) H4))))).
Defined.

(** ** Close and reconnect *)

(** While the connection is up and frames arrive, they are dispatched. *)
Example frames_are_dispatched_while_streaming :
  filter is_inbound
    (events_since (boot [btc_trade] true)
       (snd (run busy_net (until_first_read ++ [Listen 0])
               (boot [btc_trade] true)))) =
  [EvRead 0 (Some (gzip_store btc_payload));
   EvDispatch (mkMarketData btc_trade "100.50");
   EvHandler (mkPriceUpdate "priceUpdate" "BTC-USDT" (Finite (Qmake 201 2)))].
Proof. vm_compute. reflexivity. Qed.

(** C1 fails on the code.  The application connects, the [listen]
    goroutine blocks in [ReadMessage], the application calls [Close].
    The read then returns an error, and the goroutine reconnects: it
    sleeps, dials, starts another goroutine and subscribes again.  The
    client ends with the shutdown mark set and a live connection. *)
Theorem read_error_after_Close_reconnects :
  let w0 := boot [btc_trade] true in
  let w1 := snd (run quiet_net until_first_read w0) in
  let w2 := snd (step quiet_net CallClose w1) in
  let w3 := snd (step quiet_net (Listen 0) w2) in
  tasks w1 = [InRead 0]
  /\ events_since w1 w2 = [EvConnClose 0 true; EvLog LogClosed]
  /\ quit (ws w2) = true /\ conn (ws w2) = None
  /\ events_since w2 w3 =
     [EvRead 0 None; EvLog LogReadError; EvLog LogReconnecting;
      EvSleep 2000;
      EvDial "wss://open-api-swap.bingx.com/swap-market" (Some 1);
      EvLog LogConnected; EvGoListen;
      EvWrite 1 (Marshal_ref (mkChannel (uuid_ref 1) "sub" btc_trade)) true;
      EvLog (LogSubscribed btc_trade 1 1);
      EvLog LogReconnected]
  /\ quit (ws w3) = true /\ conn (ws w3) = Some 1.
Proof. cbv zeta. repeat split; vm_compute; reflexivity. Qed.

(** C2 fails on the code.  The first read on the first connection
    fails and the client reconnects: it closes the connection, sleeps,
    dials, starts a new [listen] goroutine and subscribes again.  But
    [reconnect] went through [Close], so the shutdown mark is set: the
    new goroutine returns at its poll of [ws.quit], and the frame that
    waits on the new connection is never read, under no schedule. *)
Theorem reconnected_client_reads_nothing :
  let w0 := boot [btc_trade] true in
  let w1 := snd (run flaky_net until_first_read w0) in
  let w2 := snd (step flaky_net (Listen 0) w1) in
  let w3 := snd (run flaky_net [Listen 1; Listen 1] w2) in
  tasks w1 = [InRead 0]
  /\ events_since w1 w2 =
     [EvRead 0 None; EvLog LogReadError; EvLog LogReconnecting;
      EvConnClose 0 true; EvLog LogClosed; EvSleep 2000;
      EvDial "wss://open-api-swap.bingx.com/swap-market" (Some 1);
      EvLog LogConnected; EvGoListen;
      EvWrite 1 (Marshal_ref (mkChannel (uuid_ref 1) "sub" btc_trade)) true;
      EvLog (LogSubscribed btc_trade 1 1);
      EvLog LogReconnected]
  /\ conn (ws w2) = Some 1 /\ quit (ws w2) = true
  /\ tasks w2 = [Exited; AtLoop]
  /\ inbound flaky_net 1 0 = RFrame (gzip_store btc_payload)
  /\ tasks w3 = [Exited; Exited] /\ events_since w2 w3 = []
  /\ (forall acts,
        filter is_inbound (events_since w2 (snd (run flaky_net acts w2))) = []).
Proof.
  cbv zeta.
  do 8 (split; [vm_compute; reflexivity|]).
  intro acts. apply run_after_shutdown; vm_compute; reflexivity.
Qed.

(** ** The further properties on concrete inputs *)

Lemma Close_during_a_read_is_followed_by_a_dial_witness :
  let w := snd (run quiet_net until_first_read (boot [btc_trade] true)) in
  nth_error (tasks w) 0 = Some (InRead 0)
  /\ conn (ws w) = Some 0
  /\ quit (ws (snd (step quiet_net CallClose w))) = true.
Proof.
  cbv zeta.
  assert (H1 : nth_error (tasks (snd (run quiet_net until_first_read
                                        (boot [btc_trade] true)))) 0
               = Some (InRead 0)) by (vm_compute; reflexivity).
  assert (H2 : conn (ws (snd (run quiet_net until_first_read
                                (boot [btc_trade] true)))) = Some 0)
    by (vm_compute; reflexivity).
  exact (conj H1 (conj H2
    (proj1 (Close_during_a_read_is_followed_by_a_dial quiet_net _ 0 0 H1 H2)))).
Defined.

Lemma nothing_is_read_after_a_read_error_witness :
  let w := snd (run flaky_net until_first_read (boot [btc_trade] true)) in
  tasks w = [InRead 0]
  /\ (if closed 0 (history w) then RError
      else inbound flaky_net 0 (reads_on 0 (history w))) = RError
  /\ quit (ws (snd (step flaky_net (Listen 0) w))) = true.
Proof.
  cbv zeta.
  assert (H1 : tasks (snd (run flaky_net until_first_read
                             (boot [btc_trade] true))) = [InRead 0])
    by (vm_compute; reflexivity).
  assert (H2 : (if closed 0 (history (snd (run flaky_net until_first_read
                                             (boot [btc_trade] true))))
                then RError
                else inbound flaky_net 0
                       (reads_on 0 (history (snd (run flaky_net until_first_read
                                                    (boot [btc_trade] true))))))
               = RError) by (vm_compute; reflexivity).
  exact (conj H1 (conj H2
    (proj1 (nothing_is_read_after_a_read_error flaky_net _ 0
              [Listen 1; Listen 1; CallConnect; Listen 2; Listen 2] H1 H2)))).
Defined.

Lemma Connect_reports_a_failed_dial_witness :
  dial_ok dead_net (dials (boot (float64 := float_ref) [btc_trade] true)) = false
  /\ fst (Connect dead_net (boot [btc_trade] true)) = Some ErrDial.
Proof.
  assert (H : dial_ok dead_net (dials (boot (float64 := float_ref)
                                         [btc_trade] true)) = false)
    by reflexivity.
  exact (conj H (proj1 (Connect_reports_a_failed_dial dead_net _ H))).
Defined.

Lemma subscribeAll_needs_a_connection_witness :
  conn (ws (boot (float64 := float_ref) [btc_trade] true)) = None
  /\ tokens (ws (boot (float64 := float_ref) [btc_trade] true)) <> []
  /\ fst (subscribeAll quiet_net (boot [btc_trade] true)) = Some ErrNotConnected.
Proof.
  assert (H1 : conn (ws (boot (float64 := float_ref) [btc_trade] true)) = None)
    by reflexivity.
  assert (H2 : tokens (ws (boot (float64 := float_ref) [btc_trade] true)) <> [])
    by discriminate.
  exact (conj H1 (conj H2
    (proj1 (subscribeAll_needs_a_connection quiet_net _ H1 H2)))).
Defined.

Lemma subscribeAll_stops_at_a_refused_write_witness :
  let w := snd (Connect mute_net (boot [btc_trade; eth_trade] true)) in
  conn (ws w) = Some 0
  /\ tokens (ws w) = [btc_trade; eth_trade]
  /\ negb (closed 0 (history w))
     && write_ok mute_net 0 (writes_on 0 (history w)) = false
  /\ fst (subscribeAll mute_net w) = Some (ErrSubscribe btc_trade).
Proof.
  cbv zeta.
  assert (H1 : conn (ws (snd (Connect mute_net
                 (boot [btc_trade; eth_trade] true)))) = Some 0)
    by (vm_compute; reflexivity).
  assert (H2 : tokens (ws (snd (Connect mute_net
                 (boot [btc_trade; eth_trade] true)))) = [btc_trade; eth_trade])
    by (vm_compute; reflexivity).
  assert (H3 : negb (closed 0 (history (snd (Connect mute_net
                        (boot [btc_trade; eth_trade] true)))))
               && write_ok mute_net 0
                    (writes_on 0 (history (snd (Connect mute_net
                        (boot [btc_trade; eth_trade] true))))) = false)
    by (vm_compute; reflexivity).
  exact (conj H1 (conj H2 (conj H3
    (proj1 (subscribeAll_stops_at_a_refused_write mute_net _ 0
              btc_trade [eth_trade] H1 H2 H3))))).
Defined.

Lemma subscribeAll_sleeps_between_sends_witness :
  conn (ws streaming2) = Some 0
  /\ fst (subscribeAll quiet_net streaming2) = None
  /\ filter (fun e => is_write e || is_sleep e)
       (events_since streaming2 (snd (subscribeAll quiet_net streaming2))) =
     [EvWrite 0 (Marshal_ref (mkChannel (uuid_ref 2) "sub" btc_trade)) true;
      EvSleep 100;
      EvWrite 0 (Marshal_ref (mkChannel (uuid_ref 3) "sub" eth_trade)) true].
Proof.
  assert (H1 : conn (ws streaming2) = Some 0) by reflexivity.
  assert (H2 : fst (subscribeAll quiet_net streaming2) = None)
    by (vm_compute; reflexivity).
  exact (conj H1 (conj H2
    (subscribeAll_sleeps_between_sends quiet_net streaming2 0 H1 H2))).
Defined.

(** ** Runs for the invariants *)

(** X10 on the run in which the first frame for BTC-USDT arrives. *)
Lemma callback_gets_only_price_updates_witness :
  let w := boot [btc_trade] true in
  let u := mkPriceUpdate "priceUpdate" "BTC-USDT" (Finite (Qmake 201 2)) in
  In (EvHandler u)
     (events_since w (snd (run busy_net (until_first_read ++ [Listen 0]) w)))
  /\ messageHandler (ws w) = true
  /\ Type_ u = "priceUpdate"
  /\ Symbol u <> "".
Proof.
  cbv zeta.
  assert (H : In (EvHandler
                    (mkPriceUpdate "priceUpdate" "BTC-USDT" (Finite (Qmake 201 2))))
                 (events_since (boot [btc_trade] true)
                    (snd (run busy_net (until_first_read ++ [Listen 0])
                            (boot [btc_trade] true))))).
  { vm_compute. do 7 right. left. reflexivity. }
  split; [exact H|].
  exact (callback_gets_only_price_updates busy_net _ _ _ H).
Defined.

(** X11 on the subscribe request of the same run. *)
Lemma client_writes_only_pongs_and_subscriptions_witness :
  let w := boot [btc_trade] true in
  let d := json_encode busy_net (mkChannel (uuid_New busy_net 0) "sub" btc_trade) in
  In (EvWrite 0 d true)
     (events_since w (snd (run busy_net (until_first_read ++ [Listen 0]) w)))
  /\ (d = "Pong"
      \/ exists id tok,
           In tok (tokens (ws w))
           /\ d = json_encode busy_net (mkChannel id "sub" tok)).
Proof.
  cbv zeta.
  assert (H : In (EvWrite 0
                    (json_encode busy_net
                       (mkChannel (uuid_New busy_net 0) "sub" btc_trade)) true)
                 (events_since (boot [btc_trade] true)
                    (snd (run busy_net (until_first_read ++ [Listen 0])
                            (boot [btc_trade] true))))).
  { vm_compute. do 3 right. left. reflexivity. }
  split; [exact H|].
  exact (client_writes_only_pongs_and_subscriptions busy_net _ _ _ _ _ H).
Defined.

(** X15 on the text "abc": the reference [strconv] rejects the empty
    token. *)
Lemma parsePrice_of_text_without_a_number_witness :
  starts_no_number "a" = true
  /\ parsePrice quiet_net "abc" = ParseFloat quiet_net ""
  /\ ParseFloat quiet_net "" = None.
Proof.
  assert (H : starts_no_number "a" = true) by (vm_compute; reflexivity).
  split; [exact H|].
  split; [exact (parsePrice_of_text_without_a_number quiet_net "a" "bc" H)|].
  vm_compute. reflexivity.
Defined.

(** X16 on a client for two channels whose [listen] goroutine stands
    in its first read: both channels are requested again on
    connection 1. *)
Lemma reconnect_subscribes_again_witness :
  let w := snd (run quiet_net until_first_read
                  (boot [btc_trade; eth_trade] true)) in
  let w' := snd (reconnect quiet_net w) in
  handles_ok w
  /\ dial_ok quiet_net (dials w) = true
  /\ (forall k, write_ok quiet_net (dials w) k = true)
  /\ conn (ws w') = Some (dials w)
  /\ quit (ws w') = true
  /\ filter is_write (events_since w w') =
     map (fun r => EvWrite (dials w) (json_encode quiet_net r) true)
         (requests_for quiet_net (uuids w) (tokens (ws w)))
  /\ exists pre, events_since w w' = (pre ++ [EvLog LogReconnected])%list.
Proof.
  cbv zeta.
  assert (H1 : handles_ok
                 (snd (run quiet_net until_first_read
                         (boot [btc_trade; eth_trade] true)))).
  { apply (run_lawful quiet_net until_first_read
             (boot [btc_trade; eth_trade] true)).
    apply boot_handles_ok. }
  assert (H2 : dial_ok quiet_net
                 (dials (snd (run quiet_net until_first_read
                                (boot [btc_trade; eth_trade] true)))) = true)
    by reflexivity.
  assert (H3 : forall k,
             write_ok quiet_net
               (dials (snd (run quiet_net until_first_read
                              (boot [btc_trade; eth_trade] true)))) k = true)
    by (intro k; reflexivity).
  split; [exact H1|]. split; [exact H2|]. split; [exact H3|].
  exact (reconnect_subscribes_again quiet_net _ H1 H2 H3).
Defined.

(** X17 on the network whose second dial fails. *)
Lemma failed_reconnect_is_not_retried_witness :
  let w := snd (run lossy_net until_first_read (boot [btc_trade] true)) in
  let w' := snd (step lossy_net (Listen 0) w) in
  tasks w = [InRead 0]
  /\ dial_ok lossy_net (dials w) = false
  /\ events_since w w' =
     [EvRead 0 None; EvLog LogReadError; EvLog LogReconnecting;
      EvConnClose 0 true; EvLog LogClosed; EvSleep 2000;
      EvDial "wss://open-api-swap.bingx.com/swap-market" None;
      EvLog (LogReconnectFailed ErrDial)]
  /\ conn (ws w') = None
  /\ tasks w' = [Exited]
  /\ snd (run lossy_net (map Listen [0; 1; 0]) w') = w'.
Proof.
  cbv zeta.
  assert (Ht : tasks (snd (run lossy_net until_first_read
                             (boot [btc_trade] true))) = [InRead 0])
    by (vm_compute; reflexivity).
  assert (Hr : (if closed 0 (history (snd (run lossy_net until_first_read
                                             (boot [btc_trade] true))))
                then RError
                else inbound lossy_net 0
                       (reads_on 0 (history (snd (run lossy_net until_first_read
                                                    (boot [btc_trade] true))))))
               = RError)
    by (vm_compute; reflexivity).
  assert (Hd : dial_ok lossy_net
                 (dials (snd (run lossy_net until_first_read
                                (boot [btc_trade] true)))) = false)
    by (vm_compute; reflexivity).
  split; [exact Ht|]. split; [exact Hd|].
  exact (failed_reconnect_is_not_retried lossy_net _ 0 [0; 1; 0] Ht Hr Hd).
Defined.

(** X18 on the network that cannot close a connection. *)
Lemma Close_reports_a_failed_close_witness :
  let w := snd (Connect stuck_net (boot [btc_trade] true)) in
  conn (ws w) = Some 0
  /\ close_ok stuck_net 0 = false
  /\ fst (Close stuck_net w) = Some ErrClose
  /\ events_since w (snd (Close stuck_net w)) = [EvConnClose 0 false]
  /\ conn (ws (snd (Close stuck_net w))) = None
  /\ quit (ws (snd (Close stuck_net w))) = true.
Proof.
  cbv zeta.
  assert (Hc : conn (ws (snd (Connect stuck_net (boot [btc_trade] true))))
               = Some 0) by (vm_compute; reflexivity).
  assert (Hk : close_ok stuck_net 0 = false) by reflexivity.
  split; [exact Hc|]. split; [exact Hk|].
  exact (Close_reports_a_failed_close stuck_net _ 0 Hc Hk).
Defined.

